(** * Calendar event replication triggers and the content-restore tool

    A shallow embedding of
    - [server-plugins/calendar-resources/src/index.ts]: the triggers that keep
      the reader copies of a calendar event in step with the owner's copy, and
    - [dev/tool/src/markup.ts]: the tool that restores collaborative content,
    with the properties the specification states about them. *)

From Stdlib Require Import Ascii.
From stdpp Require Import gmap strings list fin_maps.

Set Default Proof Using "Type".

(** ** Shared vocabulary *)

(** [Ref<T>] is a branded string. *)
Abbreviation Ref := string.

(** Attribute values the triggers carry around without looking inside. *)
Inductive Value :=
| VStr (s : string)
| VNum (n : Z)
| VBool (b : bool)
| VRefs (l : list string)
| VNull.

#[global] Instance Value_eq_dec : EqDecision Value.
Proof. solve_decision. Defined.

(** [a ?? b]: the left operand unless it is null or undefined. *)
Definition nullish {A} (o : option A) (d : A) : A :=
  match o with Some x => x | None => d end.
Infix "??" := nullish (at level 45, left associativity).

(** [Array.prototype.find]: the first element that satisfies [P]. *)
Definition Array_find {A} (P : A → Prop) `{!∀ x, Decision (P x)}
    (l : list A) : option A :=
  head (filter P l).

(** [Object.keys]. *)
Definition Object_keys (o : gmap string Value) : list string :=
  (map_to_list o).*1.

(** The built-in [Set]: elements are kept once, in insertion order. *)
Module JSSet.
Definition t := list Ref.

Definition add (x : Ref) (s : t) : t :=
  if decide (x ∈ s) then s else s ++ [x].

(** [new Set(iterable)] *)
Definition of_list (l : list Ref) : t :=
  fold_left (λ s x, add x s) l [].

Definition delete (x : Ref) (s : t) : t :=
  filter (λ y, y ≠ x) s.

Definition size (s : t) : nat := length s.
End JSSet.

(** ** The calendar triggers *)

Module CalendarResources.

(** *** Documents *)

Record Doc := mkDoc {
  doc_id : Ref;
  doc_class : Ref
}.

Record Event := mkEvent {
  ev_id : Ref;
  ev_class : Ref;
  ev_space : Ref;
  ev_attachedTo : Ref;
  ev_attachedToClass : Ref;
  ev_collection : string;
  ev_modifiedBy : Ref;
  ev_createdBy : option Ref;
  ev_eventId : string;
  ev_calendar : Ref;
  ev_access : string;
  ev_participants : list Ref;
  (* title, date, dueDate, visibility, reminders, ... *)
  ev_other : gmap string Value
}.

(** What is left of an event after
    [const { _class, space, attachedTo, attachedToClass, collection, ...attr } = event]. *)
Record EventData := mkEventData {
  d_id : Ref;
  d_modifiedBy : Ref;
  d_createdBy : option Ref;
  d_eventId : string;
  d_calendar : Ref;
  d_access : string;
  d_participants : list Ref;
  d_other : gmap string Value
}.

Definition rest_attr (event : Event) : EventData :=
  {| d_id := ev_id event;
     d_modifiedBy := ev_modifiedBy event;
     d_createdBy := ev_createdBy event;
     d_eventId := ev_eventId event;
     d_calendar := ev_calendar event;
     d_access := ev_access event;
     d_participants := ev_participants event;
     d_other := ev_other event |}.

(** [{ ...data, calendar, access }] *)
Definition spread_with (data : EventData) (calendar : Ref) (access : string)
    : EventData :=
  {| d_id := d_id data;
     d_modifiedBy := d_modifiedBy data;
     d_createdBy := d_createdBy data;
     d_eventId := d_eventId data;
     d_calendar := calendar;
     d_access := access;
     d_participants := d_participants data;
     d_other := d_other data |}.

(** A [Calendar]; [cal_default] is the [default] flag that only an
    [ExternalCalendar] carries. *)
Record Calendar := mkCalendar {
  cal_id : Ref;
  cal_createdBy : option Ref;
  cal_modifiedBy : Ref;
  cal_hidden : bool;
  cal_default : option bool
}.

Record PersonAccount := mkPersonAccount {
  acc_id : Ref;
  acc_person : Ref;
  acc_email : string
}.

(** *** Transactions *)

(** The incoming transactions, with the fields the triggers read. *)
Record TxUpdateDoc := mkTxUpdateDoc {
  upd_objectId : Ref;
  upd_operations : gmap string Value
}.

Record TxRemoveDoc := mkTxRemoveDoc {
  rem_objectId : Ref
}.

(** Attributes of a created document. *)
Inductive DocData :=
| EventAttrs (data : EventData)
| CalendarAttrs (name : string) (hidden : bool) (visibility : string).

(** An emitted transaction is the call of [control.txFactory] that built it,
    with the arguments in the order of the call; an argument left out or
    passed as [undefined] is [None].  Transaction id and time stamp are filled
    in by the factory and are not part of what the triggers decide. *)
Inductive Tx :=
| createTxCreateDoc (_class space : Ref) (attributes : DocData)
    (objectId : option Ref) (modifiedOn : option Z) (modifiedBy : option Ref)
| createTxUpdateDoc (_class space objectId : Ref)
    (operations : gmap string Value)
| createTxRemoveDoc (_class space objectId : Ref)
| createTxCollectionCUD (_class objectId space : Ref) (collection : string)
    (tx : Tx) (modifiedOn : option Z) (modifiedBy : option Ref).

(** *** The trigger control *)

Record Hierarchy := mkHierarchy {
  isDerived : Ref → Ref → bool
}.

Record TriggerControl := mkTriggerControl {
  store_events : list Event;
  store_calendars : list Calendar;
  store_accounts : list PersonAccount;
  store_docs : list Doc;
  modelDb : list PersonAccount;
  removedMap : gmap Ref Event;
  hierarchy : Hierarchy
}.

(** Modelled from the spec: the host's document query ([control.findAll],
    [modelDb.findAllSync]), which is not part of this plugin.  "Given a class,
    filter, and options, returns matching documents; supports [$in]
    set-membership filters and strict result-limit options": the documents of
    the class that satisfy the filter, in the store's order, cut at the
    limit. *)
Definition findAll {A} (docs : list A) (query : A → Prop)
    `{!∀ x, Decision (query x)} (limit : option nat) : list A :=
  match limit with
  | Some n => take n (filter query docs)
  | None => filter query docs
  end.

(** *** [getCalendar] *)

Definition getCalendar (calendars : list Calendar) (person : Ref)
    : option Ref :=
  let filtered :=
    filter (λ c, cal_createdBy c ?? cal_modifiedBy c = person) calendars in
  let defaultExternal := Array_find (λ c, cal_default c = Some true) filtered in
  match defaultExternal with
  | Some c => Some (cal_id c)
  | None => cal_id <$> filtered !! 0
  end.

(** *** [getEventPerson] *)

Definition getEventPerson (current : Event) (calendars : list Calendar)
    (control : TriggerControl) : option Ref :=
  let calendar := Array_find (λ c, cal_id c = ev_calendar current) calendars in
  match calendar with
  | None => None
  | Some _ =>
    let accId := ev_createdBy current ?? ev_modifiedBy current in
    let acc := findAll (modelDb control) (λ a, acc_id a = accId) None !! 0 in
    match acc with
    | None => None
    | Some acc => Some (acc_person acc)
    end
  end.

(** *** [eventForNewParticipants] *)

Definition eventForNewParticipants (event : Event) (newParticipants : JSSet.t)
    (calendars : list Calendar) (control : TriggerControl) : list Tx :=
  let accounts :=
    findAll (store_accounts control)
      (λ a, acc_person a ∈ ev_participants event) None in
  let access := "reader" in
  let data := rest_attr event in
  fold_left (λ res part,
    match Array_find (λ a, acc_person a = part) accounts with
    | None => res
    | Some acc =>
      if decide (acc_id acc = ev_createdBy event ?? ev_modifiedBy event)
      then res
      else
        match getCalendar calendars (acc_id acc) with
        | None => res
        | Some calendar =>
          let innerTx :=
            createTxCreateDoc (ev_class event) (ev_space event)
              (EventAttrs (spread_with data calendar access))
              None None (Some (acc_id acc)) in
          let outerTx :=
            createTxCollectionCUD (ev_attachedToClass event)
              (ev_attachedTo event) (ev_space event) (ev_collection event)
              innerTx None (Some (acc_id acc)) in
          res ++ [outerTx]
        end
    end) newParticipants [].

(** *** [onEventUpdate] *)

Definition onEventUpdate (ctx : TxUpdateDoc) (control : TriggerControl)
    : list Tx :=
  let ops := upd_operations ctx in
  let otherOps := delete "visibility" ops in
  if decide (length (Object_keys otherOps) = 0) then [] else
  match findAll (store_events control)
          (λ e, ev_id e = upd_objectId ctx) (Some 1) !! 0 with
  | None => []
  | Some event =>
    if decide (ev_access event ≠ "owner") then [] else
    let events :=
      findAll (store_events control)
        (λ e, ev_eventId e = ev_eventId event) None in
    let newParticipants := JSSet.of_list (ev_participants event) in
    let calendars :=
      findAll (store_calendars control) (λ c, cal_hidden c = false) None in
    let '(res, newParticipants) :=
      fold_left (λ '(res, newParticipants) ev,
        if decide (ev_id ev = ev_id event) then (res, newParticipants) else
        let person := getEventPerson ev calendars control in
        match person with
        | Some p =>
          if decide (p ∈ ev_participants event) then
            let innerTx :=
              createTxUpdateDoc (ev_class ev) (ev_space ev) (ev_id ev)
                otherOps in
            let outerTx :=
              createTxCollectionCUD (ev_attachedToClass ev) (ev_attachedTo ev)
                (ev_space ev) (ev_collection ev) innerTx None None in
            (res ++ [outerTx], JSSet.delete p newParticipants)
          else
            let innerTx :=
              createTxRemoveDoc (ev_class ev) (ev_space ev) (ev_id ev) in
            let outerTx :=
              createTxCollectionCUD (ev_attachedToClass ev) (ev_attachedTo ev)
                (ev_space ev) (ev_collection ev) innerTx None None in
            (res ++ [outerTx], newParticipants)
        | None =>
          let innerTx :=
            createTxRemoveDoc (ev_class ev) (ev_space ev) (ev_id ev) in
          let outerTx :=
            createTxCollectionCUD (ev_attachedToClass ev) (ev_attachedTo ev)
              (ev_space ev) (ev_collection ev) innerTx None None in
          (res ++ [outerTx], newParticipants)
        end) events ([], newParticipants) in
    if decide (JSSet.size newParticipants = 0) then res
    else res ++ eventForNewParticipants event newParticipants calendars control
  end.

(** *** [onRemoveEvent] *)

Definition onRemoveEvent (ctx : TxRemoveDoc) (control : TriggerControl)
    : list Tx :=
  let removed := removedMap control !! rem_objectId ctx in
  match removed with
  | Some removed =>
    if decide (ev_access removed ≠ "owner") then [] else
    let current :=
      findAll (store_events control)
        (λ e, ev_eventId e = ev_eventId removed) None in
    fold_left (λ res cur,
      res ++ [createTxRemoveDoc (ev_class cur) (ev_space cur) (ev_id cur)])
      current []
  | None => []
  end.

(** *** Reading a created document back from its transaction *)

(** [TxProcessor.extractTx] and [TxProcessor.createDoc2Doc] belong to the
    platform core.  The triggers only use what they return, so they are taken
    as given: [TxIn] is a transaction as the pipeline delivers it, and
    [createDoc2Doc], generic in the document type, is a class with one
    instance per document type. *)
Class CreateDoc2Doc (TxIn T : Type) := createDoc2Doc : TxIn → T.

(** A presenter mixin names the resource that renders a document. *)
Record PresenterMixin := mkPresenterMixin {
  presenter : string
}.

Section Triggers.

Context {TxIn : Type}.
Context `{!CreateDoc2Doc TxIn Event, !CreateDoc2Doc TxIn PersonAccount}.
Variable extractTx : TxIn → TxIn.
(* the plugin identifiers [calendar.class.Calendar], [calendar.space.Calendar] *)
Variable calendar_class_Calendar calendar_space_Calendar : Ref.
(* from server-notification-resources *)
Variable getHTMLPresenter : Ref → Hierarchy → option PresenterMixin.
Variable getTextPresenter : Ref → Hierarchy → option PresenterMixin.
(* from platform *)
Variable getResource : string → Doc → TriggerControl → string.

(** *** [ReminderHTMLPresenter], [ReminderTextPresenter] *)

Definition ReminderHTMLPresenter (doc : Event) (control : TriggerControl)
    : option string :=
  let event := doc in
  let target :=
    findAll (store_docs control)
      (λ d, isDerived (hierarchy control) (doc_class d)
              (ev_attachedToClass event) = true
            ∧ doc_id d = ev_attachedTo event) (Some 1) !! 0 in
  match target with
  | Some target =>
    let HTMLPresenter :=
      getHTMLPresenter (doc_class target) (hierarchy control) in
    let htmlPart :=
      match HTMLPresenter with
      | Some p => Some (getResource (presenter p) target control)
      | None => None
      end in
    htmlPart
  | None => None
  end.

Definition ReminderTextPresenter (doc : Event) (control : TriggerControl)
    : option string :=
  let event := doc in
  let target :=
    findAll (store_docs control)
      (λ d, isDerived (hierarchy control) (doc_class d)
              (ev_attachedToClass event) = true
            ∧ doc_id d = ev_attachedTo event) (Some 1) !! 0 in
  match target with
  | Some target =>
    let TextPresenter :=
      getTextPresenter (doc_class target) (hierarchy control) in
    match TextPresenter with
    | None => None
    | Some p => Some (getResource (presenter p) target control)
    end
  | None => None
  end.

(** *** [OnPersonAccountCreate] *)

Definition OnPersonAccountCreate (tx : TxIn) (control : TriggerControl)
    : list Tx :=
  let ctx := extractTx tx in
  let user : PersonAccount := createDoc2Doc ctx in
  let res :=
    createTxCreateDoc calendar_class_Calendar calendar_space_Calendar
      (CalendarAttrs (acc_email user) false "public")
      (Some (acc_id user +:+ "_calendar"))
      None
      (Some (acc_id user)) in
  [res].

(** *** [onEventCreate] *)

Definition onEventCreate (ctx : TxIn) (control : TriggerControl) : list Tx :=
  let event : Event := createDoc2Doc ctx in
  if decide (ev_access event ≠ "owner") then [] else
  let data := rest_attr event in
  let calendars :=
    findAll (store_calendars control) (λ c, cal_hidden c = false) None in
  let accounts :=
    findAll (store_accounts control)
      (λ a, acc_person a ∈ ev_participants event) None in
  let access := "reader" in
  fold_left (λ res part,
    match Array_find (λ a, acc_person a = part) accounts with
    | None => res
    | Some acc =>
      if decide (acc_id acc = ev_createdBy event ?? ev_modifiedBy event)
      then res
      else
        match getCalendar calendars (acc_id acc) with
        | None => res
        | Some calendar =>
          let innerTx :=
            createTxCreateDoc (ev_class event) (ev_space event)
              (EventAttrs (spread_with data calendar access))
              None None (Some (acc_id acc)) in
          let outerTx :=
            createTxCollectionCUD (ev_attachedToClass event)
              (ev_attachedTo event) (ev_space event) (ev_collection event)
              innerTx None (Some (acc_id acc)) in
          res ++ [outerTx]
        end
    end) (ev_participants event) [].

End Triggers.

(** *** [FindReminders] *)

(** The [findAll] function handed to [FindReminders] is the host's document
    query; [events] are the events it ranges over. *)
Definition FindReminders (doc : Doc) (hiearachy : Hierarchy)
    (events : list Event) : list Event :=
  findAll events (λ e, ev_attachedTo e = doc_id doc) None.

(** *** [OnEvent] *)

Section Dispatch.

Context {TxIn : Type}.
Context `{!CreateDoc2Doc TxIn Event}.
Variable extractTx : TxIn → TxIn.
(* the [_class] field of a transaction, and the transaction read as an update
   or as a removal (the casts [as TxUpdateDoc<Event>], [as TxRemoveDoc<Event>]) *)
Variable tx_class : TxIn → Ref.
Variable as_TxUpdateDoc : TxIn → TxUpdateDoc.
Variable as_TxRemoveDoc : TxIn → TxRemoveDoc.
(* the identifiers [core.class.TxCreateDoc], ... *)
Variable core_class_TxCreateDoc core_class_TxUpdateDoc
  core_class_TxRemoveDoc : Ref.

Definition OnEvent (tx : TxIn) (control : TriggerControl) : list Tx :=
  let ctx := extractTx tx in
  if decide (tx_class ctx = core_class_TxCreateDoc) then
    onEventCreate ctx control
  else if decide (tx_class ctx = core_class_TxUpdateDoc) then
    onEventUpdate (as_TxUpdateDoc ctx) control
  else if decide (tx_class ctx = core_class_TxRemoveDoc) then
    onRemoveEvent (as_TxRemoveDoc ctx) control
  else [].

End Dispatch.

(** *** Counting emitted transactions *)

(** The transaction a collection wrapper carries (the transaction itself when
    it is not wrapped). *)
Definition innerTx (tx : Tx) : Tx :=
  match tx with
  | createTxCollectionCUD _ _ _ _ inner _ _ => inner
  | _ => tx
  end.

(** [tx] removes the document [id]. *)
Definition removes (id : Ref) (tx : Tx) : bool :=
  match innerTx tx with
  | createTxRemoveDoc _ _ o => bool_decide (o = id)
  | _ => false
  end.

(** [tx] updates the document [id]. *)
Definition updates (id : Ref) (tx : Tx) : bool :=
  match innerTx tx with
  | createTxUpdateDoc _ _ o _ => bool_decide (o = id)
  | _ => false
  end.

(** [tx] creates a document on behalf of the account [acc]. *)
Definition createsFor (acc : Ref) (tx : Tx) : bool :=
  match innerTx tx with
  | createTxCreateDoc _ _ _ _ _ by_ => bool_decide (by_ = Some acc)
  | _ => false
  end.

Fixpoint count {A} (p : A → bool) (l : list A) : nat :=
  match l with
  | [] => 0
  | x :: l => (if p x then 1 else 0) + count p l
  end.

(** The id a creation asks for. *)
Definition objectIdOf (tx : Tx) : option Ref :=
  match tx with
  | createTxCreateDoc _ _ _ objectId _ _ => objectId
  | _ => None
  end.

(** The update and removal transactions [onEventUpdate] builds for a copy. *)
Definition updateTx (ev : Event) (otherOps : gmap string Value) : Tx :=
  createTxCollectionCUD (ev_attachedToClass ev) (ev_attachedTo ev)
    (ev_space ev) (ev_collection ev)
    (createTxUpdateDoc (ev_class ev) (ev_space ev) (ev_id ev) otherOps)
    None None.

Definition removeTx (ev : Event) : Tx :=
  createTxCollectionCUD (ev_attachedToClass ev) (ev_attachedTo ev)
    (ev_space ev) (ev_collection ev)
    (createTxRemoveDoc (ev_class ev) (ev_space ev) (ev_id ev))
    None None.

(** The nested create transaction for a reader copy of [event] in [calendar],
    on behalf of the account [acc]. *)
Definition readerCopyTx (event : Event) (calendar acc : Ref) : Tx :=
  createTxCollectionCUD (ev_attachedToClass event) (ev_attachedTo event)
    (ev_space event) (ev_collection event)
    (createTxCreateDoc (ev_class event) (ev_space event)
       (EventAttrs (spread_with (rest_attr event) calendar "reader"))
       None None (Some acc))
    None (Some acc).

(** The calendars a trigger loads: those that are not hidden. *)
Definition visibleCalendars (control : TriggerControl) : list Calendar :=
  findAll (store_calendars control) (λ c, cal_hidden c = false) None.

(** The sibling copies of [event]: same [eventId], another document. *)
Definition siblings (control : TriggerControl) (event : Event) : list Event :=
  filter (λ ev, ev_id ev ≠ ev_id event)
    (findAll (store_events control)
       (λ e, ev_eventId e = ev_eventId event) None).

(** The account that created the event, or last modified it when the creator
    is not recorded. *)
Definition creatorOf (event : Event) : Ref :=
  ev_createdBy event ?? ev_modifiedBy event.

(** The access and the calendar a creation gives the new event. *)
Definition createdAccess (tx : Tx) : option string :=
  match innerTx tx with
  | createTxCreateDoc _ _ (EventAttrs data) _ _ _ => Some (d_access data)
  | _ => None
  end.

Definition createdCalendar (tx : Tx) : option Ref :=
  match innerTx tx with
  | createTxCreateDoc _ _ (EventAttrs data) _ _ _ => Some (d_calendar data)
  | _ => None
  end.

(** How often [x] occurs in [l]. *)
Definition occurrences (x : Ref) (l : list Ref) : nat :=
  count (λ y, bool_decide (y = x)) l.

(** The holder of a copy, as [onEventUpdate] resolves it. *)
Definition holder (control : TriggerControl) (ev : Event) : option Ref :=
  getEventPerson ev (visibleCalendars control) control.

(** What one round of the loop over the copies pushes for the sibling [ev]. *)
Definition reconcileTx (control : TriggerControl) (event : Event)
    (otherOps : gmap string Value) (ev : Event) : Tx :=
  match holder control ev with
  | Some p =>
    if decide (p ∈ ev_participants event) then updateTx ev otherOps
    else removeTx ev
  | None => removeTx ev
  end.

(** What is left of [newParticipants] after the loop over the copies. *)
Definition remaining (control : TriggerControl) (event : Event) : JSSet.t :=
  fold_left (λ np ev,
    match holder control ev with
    | Some p =>
      if decide (p ∈ ev_participants event) then JSSet.delete p np else np
    | None => np
    end) (siblings control event) (JSSet.of_list (ev_participants event)).

(** The first account of the store that belongs to the person [part]. *)
Definition accountOf (control : TriggerControl) (part : Ref)
    : option PersonAccount :=
  Array_find (λ a, acc_person a = part) (store_accounts control).

(** The update changes a field other than [visibility]. *)
Definition changesOther (ctx : TxUpdateDoc) : Prop :=
  ∃ k, k ≠ "visibility" ∧ is_Some (upd_operations ctx !! k).

(** The stored event a transaction points at. *)
Definition storedEvent (control : TriggerControl) (id : Ref) : option Event :=
  findAll (store_events control) (λ e, ev_id e = id) (Some 1) !! 0.

(** What one round of the loops over the participants pushes for [part],
    given the accounts and the calendars the trigger has loaded. *)
Definition copyStep (accounts : list PersonAccount) (calendars : list Calendar)
    (event : Event) (part : Ref) : option Tx :=
  match Array_find (λ a, acc_person a = part) accounts with
  | None => None
  | Some acc =>
    if decide (acc_id acc = creatorOf event) then None
    else
      match getCalendar calendars (acc_id acc) with
      | None => None
      | Some calendar => Some (readerCopyTx event calendar (acc_id acc))
      end
  end.

Definition copyFor (control : TriggerControl) (event : Event) (part : Ref)
    : option Tx :=
  copyStep (store_accounts control) (visibleCalendars control) event part.

(** The calendars [getCalendar] takes to be those of the account [person]:
    created by it or, when no creator is recorded, last modified by it. *)
Definition ownedBy (person : Ref) (c : Calendar) : Prop :=
  match cal_createdBy c with
  | Some a => a = person
  | None => cal_modifiedBy c = person
  end.

#[global] Instance ownedBy_dec person c : Decision (ownedBy person c).
Proof. unfold ownedBy. destruct (cal_createdBy c); apply _. Defined.

(** *** A small store to run the triggers on

    The owner keeps event [E] in [e0]; Ann holds the copy [e1]; Bob, who is no
    longer invited, still holds [e2]; Cy is invited and has no copy yet; Dee is
    invited and has neither account nor copy; Eve is invited and has an
    account but only a hidden calendar. *)

Definition ex_event (id cal acc : Ref) (access : string) : Event :=
  {| ev_id := id; ev_class := "calendar:class:Event";
     ev_space := "calendar:space:Calendar";
     ev_attachedTo := "task-1"; ev_attachedToClass := "tracker:class:Issue";
     ev_collection := "events";
     ev_modifiedBy := acc; ev_createdBy := Some acc;
     ev_eventId := "E"; ev_calendar := cal; ev_access := access;
     ev_participants := ["p-owner"; "p-ann"; "p-cy"; "p-dee"; "p-eve"];
     ev_other := {[ "title" := VStr "Review" ]} |}.

Definition ex_e0 : Event := ex_event "e0" "cal-owner" "acc-owner" "owner".
Definition ex_e1 : Event := ex_event "e1" "cal-ann" "acc-ann" "reader".
Definition ex_e2 : Event := ex_event "e2" "cal-bob" "acc-bob" "reader".

Definition ex_calendar (id acc : Ref) (hidden : bool) : Calendar :=
  {| cal_id := id; cal_createdBy := Some acc; cal_modifiedBy := acc;
     cal_hidden := hidden; cal_default := None |}.

Definition ex_account (id person : Ref) : PersonAccount :=
  {| acc_id := id; acc_person := person; acc_email := id +:+ "@example.org" |}.

Definition ex_accounts : list PersonAccount :=
  [ ex_account "acc-owner" "p-owner"; ex_account "acc-ann" "p-ann";
    ex_account "acc-bob" "p-bob"; ex_account "acc-cy" "p-cy";
    ex_account "acc-eve" "p-eve" ].

Definition ex_control : TriggerControl :=
  {| store_events := [ex_e0; ex_e1; ex_e2];
     store_calendars :=
       [ ex_calendar "cal-owner" "acc-owner" false;
         ex_calendar "cal-ann" "acc-ann" false;
         ex_calendar "cal-bob" "acc-bob" false;
         ex_calendar "cal-cy" "acc-cy" false;
         ex_calendar "cal-eve" "acc-eve" true ];
     store_accounts := ex_accounts;
     store_docs := [ {| doc_id := "task-1"; doc_class := "tracker:class:Issue" |} ];
     modelDb := ex_accounts;
     removedMap := {[ "e0" := ex_e0; "e1" := ex_e1 ]};
     hierarchy := {| isDerived := λ c d, bool_decide (c = d) |} |}.

(** The owner retitles the event and makes it private. *)
Definition ex_retitle : TxUpdateDoc :=
  {| upd_objectId := "e0";
     upd_operations :=
       {[ "title" := VStr "Design review"; "visibility" := VStr "private" ]} |}.

(** The owner only makes the event private. *)
Definition ex_hide : TxUpdateDoc :=
  {| upd_objectId := "e0";
     upd_operations := {[ "visibility" := VStr "private" ]} |}.

(** The same store once the owner copy [e0] has been removed. *)
Definition ex_control_removed : TriggerControl :=
  {| store_events := [ex_e1; ex_e2];
     store_calendars := store_calendars ex_control;
     store_accounts := ex_accounts;
     store_docs := store_docs ex_control;
     modelDb := ex_accounts;
     removedMap := {[ "e0" := ex_e0 ]};
     hierarchy := hierarchy ex_control |}.

(** A calendar that Ann created and Bob edited last. *)
Definition ex_shared_calendar : Calendar :=
  {| cal_id := "cal-shared"; cal_createdBy := Some "acc-ann";
     cal_modifiedBy := "acc-bob"; cal_hidden := false; cal_default := None |}.

(** Cy's calendars: a plain one first, then the default external one. *)
Definition ex_cy_calendars : list Calendar :=
  [ ex_calendar "cal-ann" "acc-ann" false;
    ex_calendar "cal-cy" "acc-cy" false;
    {| cal_id := "cal-cy-google"; cal_createdBy := None;
       cal_modifiedBy := "acc-cy"; cal_hidden := false;
       cal_default := Some true |} ].

(** For the examples, a creation is handed over as the document it creates. *)
Definition ex_createDoc2Doc : CreateDoc2Doc Event Event := λ ctx, ctx.

(** An event attached to a record the store does not hold. *)
Definition ex_orphan : Event :=
  {| ev_id := "e9"; ev_class := "calendar:class:Event";
     ev_space := "calendar:space:Calendar";
     ev_attachedTo := "task-9"; ev_attachedToClass := "tracker:class:Issue";
     ev_collection := "events";
     ev_modifiedBy := "acc-owner"; ev_createdBy := None;
     ev_eventId := "F"; ev_calendar := "cal-owner"; ev_access := "owner";
     ev_participants := []; ev_other := ∅ |}.

(** Issues have an HTML presenter and no text presenter. *)
Definition ex_getHTMLPresenter (_class : Ref) (h : Hierarchy)
    : option PresenterMixin :=
  if decide (_class = "tracker:class:Issue")
  then Some {| presenter := "tracker:function:IssueHTMLPresenter" |}
  else None.

Definition ex_getTextPresenter (_class : Ref) (h : Hierarchy)
    : option PresenterMixin := None.

Definition ex_getResource (resource : string) (target : Doc)
    (control : TriggerControl) : string :=
  "<a>" +:+ doc_id target +:+ "</a>".

(** ** Properties of the calendar triggers *)

(** *** Lists and loops *)

Lemma count_app {A} (p : A → bool) (l k : list A) :
  count p (l ++ k) = count p l + count p k.
Proof. induction l as [|x l IH]; simpl; [done|]. rewrite IH. lia. Qed.

Lemma count_none {A} (p : A → bool) (l : list A) :
  (∀ x, x ∈ l → p x = false) → count p l = 0.
Proof.
  induction l as [|x l IH]; intros Hall; simpl; [done|].
  rewrite (Hall x) by left. rewrite IH; [done|].
  intros y Hy. apply Hall. by right.
Qed.

Lemma count_fmap {A B} (p : B → bool) (f : A → B) (l : list A) :
  count p (f <$> l) = count (p ∘ f) l.
Proof.
  induction l as [|x l IH]; [done|].
  rewrite fmap_cons. simpl. by rewrite IH.
Qed.

Lemma count_ext {A} (p q : A → bool) (l : list A) :
  (∀ x, x ∈ l → p x = q x) → count p l = count q l.
Proof.
  induction l as [|x l IH]; intros Hall; simpl; [done|].
  rewrite (Hall x) by left. rewrite IH; [done|].
  intros y Hy. apply Hall. by right.
Qed.

(** In a list whose keys are pairwise distinct, a key occurs once. *)
Lemma count_key_unique {A} (key : A → Ref) (l : list A) (x : A) :
  NoDup (key <$> l) → x ∈ l →
  count (λ y, bool_decide (key y = key x)) l = 1.
Proof.
  induction l as [|y l IH]; intros Hnd Hx; [by apply elem_of_nil in Hx|].
  rewrite fmap_cons in Hnd. apply NoDup_cons in Hnd as [Hy Hnd]. simpl.
  apply elem_of_cons in Hx as [->|Hx].
  - rewrite bool_decide_eq_true_2 by done.
    rewrite count_none; [done|].
    intros z Hz. apply bool_decide_eq_false_2. intros Heq.
    apply Hy. rewrite <- Heq. by apply list_elem_of_fmap_2.
  - rewrite bool_decide_eq_false_2.
    + by rewrite IH.
    + intros Heq. apply Hy. rewrite Heq. by apply list_elem_of_fmap_2.
Qed.

Lemma key_unique_inj {A} (key : A → Ref) (l : list A) (x y : A) :
  NoDup (key <$> l) → x ∈ l → y ∈ l → key x = key y → x = y.
Proof.
  induction l as [|z l IH]; intros Hnd Hx Hy Heq; [by apply elem_of_nil in Hx|].
  rewrite fmap_cons in Hnd. apply NoDup_cons in Hnd as [Hz Hnd].
  apply elem_of_cons in Hx as [->|Hx]; apply elem_of_cons in Hy as [->|Hy].
  - done.
  - exfalso. apply Hz. rewrite Heq. by apply list_elem_of_fmap_2.
  - exfalso. apply Hz. rewrite <- Heq. by apply list_elem_of_fmap_2.
  - by apply IH.
Qed.

(** A loop that pushes at most one element per round builds [omap]. *)
Lemma fold_left_push {A B} (body : list B → A → list B) (f : A → option B)
    (l : list A) (res : list B) :
  (∀ res x, x ∈ l → body res x = res ++ option_list (f x)) →
  fold_left body l res = res ++ omap f l.
Proof.
  revert res. induction l as [|x l IH]; intros res Hbody; simpl.
  - by rewrite app_nil_r.
  - rewrite IH.
    + rewrite Hbody by left. rewrite <- app_assoc. f_equal.
      by destruct (f x).
    + intros res' y Hy. apply Hbody. by right.
Qed.

Lemma Array_find_Some {A} (P : A → Prop) `{!∀ x, Decision (P x)}
    (l : list A) (x : A) :
  Array_find P l = Some x →
  ∃ l1 l2, l = l1 ++ x :: l2 ∧ P x ∧ ∀ y, y ∈ l1 → ¬ P y.
Proof.
  unfold Array_find. induction l as [|y l IH]; simpl; [done|].
  rewrite filter_cons. destruct (decide (P y)) as [Hy|Hy]; simpl.
  - intros [= ->]. exists [], l. split_and!; [done..|].
    intros z Hz. by apply elem_of_nil in Hz.
  - intros Hf. destruct (IH Hf) as (l1 & l2 & -> & Hx & Hl1).
    exists (y :: l1), l2. split_and!; [done..|].
    intros z [->|Hz]%elem_of_cons; auto.
Qed.

Lemma Array_find_first {A} (P : A → Prop) `{!∀ x, Decision (P x)}
    (l1 l2 : list A) (x : A) :
  P x → (∀ y, y ∈ l1 → ¬ P y) → Array_find P (l1 ++ x :: l2) = Some x.
Proof.
  unfold Array_find. intros Hx. induction l1 as [|y l1 IH]; intros Hl1; simpl.
  - by rewrite filter_cons_True.
  - rewrite filter_cons_False by (apply Hl1; left).
    apply IH. intros z Hz. apply Hl1. by right.
Qed.

Lemma Array_find_None {A} (P : A → Prop) `{!∀ x, Decision (P x)}
    (l : list A) :
  Array_find P l = None ↔ ∀ y, y ∈ l → ¬ P y.
Proof.
  unfold Array_find. rewrite head_None. split.
  - intros Hnil y Hy HP.
    assert (y ∈ filter P l) as Hin by (by apply list_elem_of_filter).
    rewrite Hnil in Hin. by apply elem_of_nil in Hin.
  - intros Hall. induction l as [|y l IH]; [done|].
    rewrite filter_cons_False by (apply Hall; left).
    apply IH. intros z Hz. apply Hall. by right.
Qed.

(** *** The built-in set *)

Lemma JSSet_add_elem (x y : Ref) (s : JSSet.t) :
  y ∈ JSSet.add x s ↔ y = x ∨ y ∈ s.
Proof.
  unfold JSSet.add. destruct (decide (x ∈ s)) as [Hin|Hin].
  - split; [by right|]. by intros [->|?].
  - rewrite elem_of_app, list_elem_of_singleton. tauto.
Qed.

Lemma JSSet_add_NoDup (x : Ref) (s : JSSet.t) :
  NoDup s → NoDup (JSSet.add x s).
Proof.
  intros Hnd. unfold JSSet.add. destruct (decide (x ∈ s)) as [Hin|Hin]; [done|].
  apply NoDup_app. split_and!; [done| |apply NoDup_singleton].
  intros y Hy ->%list_elem_of_singleton. done.
Qed.

Lemma JSSet_fold_add (l : list Ref) (s : JSSet.t) :
  NoDup s →
  NoDup (fold_left (λ s x, JSSet.add x s) l s)
  ∧ ∀ y, y ∈ fold_left (λ s x, JSSet.add x s) l s ↔ y ∈ l ∨ y ∈ s.
Proof.
  revert s. induction l as [|x l IH]; intros s Hnd; simpl.
  - split; [done|]. intros y. rewrite elem_of_nil. tauto.
  - destruct (IH (JSSet.add x s) (JSSet_add_NoDup x s Hnd)) as [Hnd' Hin].
    split; [done|]. intros y.
    rewrite Hin, JSSet_add_elem, elem_of_cons. tauto.
Qed.

Lemma JSSet_of_list_NoDup (l : list Ref) : NoDup (JSSet.of_list l).
Proof. apply JSSet_fold_add, NoDup_nil_2. Qed.

Lemma JSSet_of_list_elem (l : list Ref) (y : Ref) :
  y ∈ JSSet.of_list l ↔ y ∈ l.
Proof.
  unfold JSSet.of_list.
  destruct (JSSet_fold_add l [] (NoDup_nil_2)) as [_ Hin].
  rewrite Hin, elem_of_nil. tauto.
Qed.

Lemma JSSet_delete_elem (x y : Ref) (s : JSSet.t) :
  y ∈ JSSet.delete x s ↔ y ∈ s ∧ y ≠ x.
Proof. unfold JSSet.delete. rewrite list_elem_of_filter. tauto. Qed.

Lemma JSSet_delete_NoDup (x : Ref) (s : JSSet.t) :
  NoDup s → NoDup (JSSet.delete x s).
Proof. apply NoDup_filter. Qed.

(** *** The visibility gate *)

Lemma otherOps_empty (ops : gmap string Value) :
  (∀ k, is_Some (ops !! k) → k = "visibility") →
  length (Object_keys (delete "visibility" ops)) = 0.
Proof.
  intros Honly.
  assert (delete "visibility" ops = ∅) as ->.
  { apply map_eq. intros k. rewrite lookup_empty.
    destruct (decide (k = "visibility")) as [->|Hne].
    - apply lookup_delete_eq.
    - rewrite lookup_delete_ne by done.
      destruct (ops !! k) eqn:Hk; [|done].
      exfalso. apply Hne, Honly. by rewrite Hk. }
  unfold Object_keys. by rewrite map_to_list_empty.
Qed.

Lemma otherOps_nonempty (ctx : TxUpdateDoc) :
  changesOther ctx →
  length (Object_keys (delete "visibility" (upd_operations ctx))) ≠ 0.
Proof.
  intros (k & Hne & [v Hv]) Hlen.
  unfold Object_keys in Hlen. rewrite length_fmap in Hlen.
  apply nil_length_inv, map_to_list_empty_iff in Hlen.
  assert (delete "visibility" (upd_operations ctx) !! k = Some v) as Hk
    by (by rewrite lookup_delete_ne).
  rewrite Hlen, lookup_empty in Hk. done.
Qed.

(** C4. An update whose operations name no field other than [visibility]
    makes [onEventUpdate] emit no transaction, whatever the store holds:
    whatever the access or the participants of the event. *)
Theorem onEventUpdate_visibility_only ctx control :
  (∀ k, is_Some (upd_operations ctx !! k) → k = "visibility") →
  onEventUpdate ctx control = [].
Proof.
  intros Honly. unfold onEventUpdate.
  rewrite decide_True; [done|]. by apply otherOps_empty.
Qed.

(** *** The loop over the copies *)

Lemma NoDup_key_filter {A} (key : A → Ref) (P : A → Prop)
    `{!∀ x, Decision (P x)} (l : list A) :
  NoDup (key <$> l) → NoDup (key <$> filter P l).
Proof.
  intros Hnd. eapply sublist_NoDup; [exact Hnd|].
  induction l as [|x l IH]; [done|].
  rewrite fmap_cons in Hnd. apply NoDup_cons in Hnd as [_ Hnd].
  rewrite filter_cons. destruct (decide (P x)); rewrite !fmap_cons.
  - apply sublist_skip. by apply IH.
  - apply sublist_cons. by apply IH.
Qed.

Lemma count_at_key {A} (key : A → Ref) (l : list A) (x : A) (q : A → bool) :
  NoDup (key <$> l) → x ∈ l →
  (∀ y, y ∈ l → q y = true → key y = key x) →
  count q l = if q x then 1 else 0.
Proof.
  intros Hnd Hx Hq. destruct (q x) eqn:Hqx.
  - rewrite <- (count_key_unique key l x Hnd Hx).
    apply count_ext. intros y Hy. destruct (q y) eqn:Hqy.
    + symmetry. apply bool_decide_eq_true_2. by apply Hq.
    + symmetry. apply bool_decide_eq_false_2. intros Heq.
      assert (y = x) as -> by (by eapply key_unique_inj). congruence.
  - apply count_none. intros y Hy. destruct (q y) eqn:Hqy; [|done].
    assert (y = x) as -> by (eapply key_unique_inj; eauto). congruence.
Qed.

(** A loop that skips some rounds and otherwise pushes one element and
    updates a second variable. *)
Lemma fold_left_pair {A B C} (body : list B * C → A → list B * C)
    (skip : A → Prop) `{!∀ x, Decision (skip x)}
    (f : A → B) (g : C → A → C) (l : list A) (res : list B) (c : C) :
  (∀ res c x,
     body (res, c) x
     = if decide (skip x) then (res, c) else (res ++ [f x], g c x)) →
  fold_left body l (res, c)
  = (res ++ (f <$> filter (λ x, ¬ skip x) l),
     fold_left g (filter (λ x, ¬ skip x) l) c).
Proof.
  intros Hbody. revert res c.
  induction l as [|x l IH]; intros res c; simpl.
  - by rewrite app_nil_r.
  - rewrite Hbody, filter_cons. destruct (decide (skip x)) as [Hs|Hs].
    + rewrite decide_False by tauto. apply IH.
    + rewrite decide_True by done. rewrite IH, fmap_cons. simpl.
      by rewrite <- app_assoc.
Qed.

Lemma find_in_filtered {A} (P Q : A → Prop) `{!∀ x, Decision (P x)}
    `{!∀ x, Decision (Q x)} (l : list A) :
  (∀ x, P x → Q x) →
  Array_find P (filter Q l) = Array_find P l.
Proof.
  intros HPQ. unfold Array_find. f_equal.
  induction l as [|x l IH]; [done|].
  rewrite !filter_cons. destruct (decide (Q x)) as [HQ|HQ].
  - rewrite filter_cons. destruct (decide (P x)); by rewrite IH.
  - rewrite decide_False by (intros HP; apply HQ, HPQ, HP). done.
Qed.

Lemma eventForNewParticipants_steps event np calendars control :
  eventForNewParticipants event np calendars control
  = omap (copyStep
            (findAll (store_accounts control)
               (λ a, acc_person a ∈ ev_participants event) None)
            calendars event) np.
Proof.
  unfold eventForNewParticipants.
  rewrite (fold_left_push _ (copyStep
    (findAll (store_accounts control)
       (λ a, acc_person a ∈ ev_participants event) None) calendars event));
    [done|].
  intros res part _. unfold copyStep, creatorOf.
  destruct (Array_find _ _) as [acc|]; simpl; [|by rewrite app_nil_r].
  destruct (decide _); simpl; [by rewrite app_nil_r|].
  destruct (getCalendar _ _); simpl; [done|by rewrite app_nil_r].
Qed.

Lemma copyStep_participant control calendars event part :
  part ∈ ev_participants event →
  copyStep (findAll (store_accounts control)
              (λ a, acc_person a ∈ ev_participants event) None)
    calendars event part
  = copyStep (store_accounts control) calendars event part.
Proof.
  intros Hpart. unfold copyStep, findAll.
  by rewrite find_in_filtered by (by intros a ->).
Qed.

Lemma eventForNewParticipants_omap event np control :
  (∀ part, part ∈ np → part ∈ ev_participants event) →
  eventForNewParticipants event np (visibleCalendars control) control
  = omap (copyFor control event) np.
Proof.
  intros Hnp. rewrite eventForNewParticipants_steps.
  apply list_omap_ext, Forall2_same_length_lookup_2; [done|].
  intros i x y Hx Hy. assert (x = y) as <- by congruence.
  apply copyStep_participant, Hnp. by eapply list_elem_of_lookup_2.
Qed.

Lemma remaining_spec control event :
  NoDup (remaining control event)
  ∧ ∀ q, q ∈ remaining control event ↔
      q ∈ ev_participants event
      ∧ ∀ ev, ev ∈ siblings control event → holder control ev ≠ Some q.
Proof.
  unfold remaining.
  pose proof (JSSet_of_list_NoDup (ev_participants event)) as Hnd.
  pose proof (JSSet_of_list_elem (ev_participants event)) as Hin.
  revert Hnd Hin. generalize (JSSet.of_list (ev_participants event)) as np.
  generalize (siblings control event) as sibs.
  intros sibs np Hnd Hin.
  assert (∀ sibs np, NoDup np →
    NoDup (fold_left (λ np ev,
      match holder control ev with
      | Some p =>
        if decide (p ∈ ev_participants event) then JSSet.delete p np else np
      | None => np
      end) sibs np)
    ∧ ∀ q, q ∈ fold_left (λ np ev,
      match holder control ev with
      | Some p =>
        if decide (p ∈ ev_participants event) then JSSet.delete p np else np
      | None => np
      end) sibs np ↔
      q ∈ np ∧ (q ∈ ev_participants event →
                ∀ ev, ev ∈ sibs → holder control ev ≠ Some q)) as Hloop.
  { clear. intros sibs. induction sibs as [|ev sibs IH]; intros np Hnd; simpl.
    - split; [done|]. intros q. split; [|tauto].
      intros Hq. split; [done|]. intros _ ev Hev. by apply elem_of_nil in Hev.
    - destruct (holder control ev) as [p|] eqn:Hp.
      + destruct (decide (p ∈ ev_participants event)) as [Hpin|Hpin].
        * destruct (IH _ (JSSet_delete_NoDup p np Hnd)) as [Hnd' Hq].
          split; [done|]. intros q. rewrite Hq, JSSet_delete_elem. split.
          -- intros [[Hqn Hne] Hs]. split; [done|].
             intros Hqp ev' [->|Hev']%elem_of_cons; [congruence|by apply Hs].
          -- intros [Hqn Hs]. split_and!; [done| |].
             ++ intros ->. by apply (Hs Hpin ev); [left|].
             ++ intros Hqp ev' Hev'. apply Hs; [done|by right].
        * destruct (IH _ Hnd) as [Hnd' Hq].
          split; [done|]. intros q. rewrite Hq. split.
          -- intros [Hqn Hs]. split; [done|].
             intros Hqp ev' [->|Hev']%elem_of_cons; [congruence|by apply Hs].
          -- intros [Hqn Hs]. split; [done|].
             intros Hqp ev' Hev'. apply Hs; [done|by right].
      + destruct (IH _ Hnd) as [Hnd' Hq].
        split; [done|]. intros q. rewrite Hq. split.
        * intros [Hqn Hs]. split; [done|].
          intros Hqp ev' [->|Hev']%elem_of_cons; [congruence|by apply Hs].
        * intros [Hqn Hs]. split; [done|].
          intros Hqp ev' Hev'. apply Hs; [done|by right]. }
  destruct (Hloop sibs np Hnd) as [Hnd' Hq]. split; [done|].
  intros q. rewrite Hq, Hin. tauto.
Qed.

(** What [onEventUpdate] returns once its three gates are passed: one
    transaction per sibling copy, then the copies for the participants that
    are left. *)
Lemma onEventUpdate_eq ctx control event :
  changesOther ctx →
  storedEvent control (upd_objectId ctx) = Some event →
  ev_access event = "owner" →
  onEventUpdate ctx control
  = (reconcileTx control event (delete "visibility" (upd_operations ctx))
       <$> siblings control event)
    ++ omap (copyFor control event) (remaining control event).
Proof.
  intros Hops Hev Hacc. unfold onEventUpdate.
  rewrite decide_False by (by apply otherOps_nonempty).
  unfold storedEvent in Hev. rewrite Hev.
  rewrite decide_False by (intros Hne; by apply Hne).
  erewrite (fold_left_pair _ (λ ev, ev_id ev = ev_id event)
    (reconcileTx control event (delete "visibility" (upd_operations ctx)))
    (λ np ev,
      match holder control ev with
      | Some p =>
        if decide (p ∈ ev_participants event) then JSSet.delete p np else np
      | None => np
      end)).
  2:{ intros res np ev. destruct (decide (ev_id ev = ev_id event)); [done|].
      unfold reconcileTx, holder, visibleCalendars, updateTx, removeTx.
      destruct (getEventPerson _ _ _) as [p|]; [|done].
      by destruct (decide (p ∈ ev_participants event)). }
  fold (siblings control event). fold (remaining control event).
  simpl. destruct (decide (JSSet.size (remaining control event) = 0)) as [Hz|Hz].
  - apply nil_length_inv in Hz. rewrite Hz. simpl. by rewrite app_nil_r.
  - f_equal. apply eventForNewParticipants_omap.
    intros part Hpart. by apply remaining_spec in Hpart as [? _].
Qed.

(** *** Updates reach the sibling copies *)

Lemma siblings_elem control event ev :
  ev ∈ siblings control event ↔
  ev ∈ store_events control ∧ ev_eventId ev = ev_eventId event
  ∧ ev_id ev ≠ ev_id event.
Proof.
  unfold siblings, findAll. rewrite !list_elem_of_filter. tauto.
Qed.

Lemma siblings_NoDup control event :
  NoDup (ev_id <$> store_events control) →
  NoDup (ev_id <$> siblings control event).
Proof.
  intros Hnd. unfold siblings, findAll. by do 2 apply NoDup_key_filter.
Qed.

Lemma copyFor_readerCopy control event part tx :
  copyFor control event part = Some tx →
  ∃ calendar acc, tx = readerCopyTx event calendar acc.
Proof.
  unfold copyFor, copyStep.
  destruct (Array_find _ _) as [acc|]; [|done].
  destruct (decide _); [done|].
  destruct (getCalendar _ _) as [calendar|]; [|done].
  intros [= <-]. eauto.
Qed.

Lemma count_copies_0 control event (p : Tx → bool) (np : list Ref) :
  (∀ calendar acc, p (readerCopyTx event calendar acc) = false) →
  count p (omap (copyFor control event) np) = 0.
Proof.
  intros Hp. apply count_none. intros tx (part & _ & Hc)%list_elem_of_omap.
  apply copyFor_readerCopy in Hc as (calendar & acc & ->). apply Hp.
Qed.

(** C1. When an update of an owner event changes a field other than
    [visibility], every sibling copy (same [eventId], another document)
    whose resolved holder is still a participant gets exactly one update
    transaction, carrying the operations of the update without [visibility],
    and no removal; every sibling copy whose holder does not resolve or is no
    longer a participant gets exactly one removal transaction and no update. *)
Theorem onEventUpdate_reconciles_copies ctx control event ev :
  changesOther ctx →
  storedEvent control (upd_objectId ctx) = Some event →
  ev_access event = "owner" →
  NoDup (ev_id <$> store_events control) →
  ev ∈ store_events control →
  ev_eventId ev = ev_eventId event →
  ev_id ev ≠ ev_id event →
  let out := onEventUpdate ctx control in
  (∀ p, holder control ev = Some p → p ∈ ev_participants event →
     ∃ ops' : gmap string Value,
       updateTx ev ops' ∈ out
       ∧ ops' !! "visibility" = None
       ∧ (∀ k, k ≠ "visibility" → ops' !! k = upd_operations ctx !! k)
       ∧ count (updates (ev_id ev)) out = 1
       ∧ count (removes (ev_id ev)) out = 0)
  ∧ ((∀ p, holder control ev = Some p → p ∉ ev_participants event) →
     removeTx ev ∈ out
     ∧ count (removes (ev_id ev)) out = 1
     ∧ count (updates (ev_id ev)) out = 0).
Proof.
  intros Hops Hev Hacc Hnd Hin Heid Hid out. subst out.
  rewrite (onEventUpdate_eq ctx control event Hops Hev Hacc).
  set (otherOps := delete "visibility" (upd_operations ctx)).
  assert (ev ∈ siblings control event) as Hsib by (by apply siblings_elem).
  pose proof (siblings_NoDup control event Hnd) as Hnds.
  assert (∀ p : Tx → bool,
    (∀ calendar acc, p (readerCopyTx event calendar acc) = false) →
    (∀ y, p (reconcileTx control event otherOps y) = true →
          ev_id y = ev_id ev) →
    count p ((reconcileTx control event otherOps <$> siblings control event)
             ++ omap (copyFor control event) (remaining control event))
    = if p (reconcileTx control event otherOps ev) then 1 else 0) as Hcount.
  { intros p Hcopy Hkey.
    rewrite count_app, count_fmap, count_copies_0, Nat.add_0_r by done.
    rewrite (count_at_key ev_id _ ev); [done..|].
    intros y _. apply Hkey. }
  assert (∀ y b, updates (ev_id ev) (reconcileTx control event otherOps y) = b
                 → b = true → ev_id y = ev_id ev) as Hupd.
  { intros y b <-. unfold reconcileTx.
    destruct (holder control y) as [q|]; [destruct (decide _)|]; simpl;
      try done.
    by intros ?%bool_decide_eq_true_1. }
  assert (∀ y b, removes (ev_id ev) (reconcileTx control event otherOps y) = b
                 → b = true → ev_id y = ev_id ev) as Hrem.
  { intros y b <-. unfold reconcileTx.
    destruct (holder control y) as [q|]; [destruct (decide _)|]; simpl;
      try done; by intros ?%bool_decide_eq_true_1. }
  split.
  - intros p Hp Hpin. exists otherOps.
    assert (reconcileTx control event otherOps ev = updateTx ev otherOps) as Hr.
    { unfold reconcileTx. rewrite Hp. by rewrite decide_True. }
    split_and!.
    + apply elem_of_app. left. rewrite <- Hr. by apply list_elem_of_fmap_2.
    + apply lookup_delete_eq.
    + intros k Hk. by apply lookup_delete_ne.
    + rewrite Hcount; [|done|by eauto]. rewrite Hr.
      unfold updates, removes, updateTx, removeTx. simpl.
      by rewrite bool_decide_eq_true_2.
    + rewrite Hcount; [|done|by eauto]. by rewrite Hr.
  - intros Hp.
    assert (reconcileTx control event otherOps ev = removeTx ev) as Hr.
    { unfold reconcileTx. destruct (holder control ev) as [p|]; [|done].
      rewrite decide_False; [done|]. by apply Hp. }
    split_and!.
    + apply elem_of_app. left. rewrite <- Hr. by apply list_elem_of_fmap_2.
    + rewrite Hcount; [|done|by eauto]. rewrite Hr.
      unfold updates, removes, updateTx, removeTx. simpl.
      by rewrite bool_decide_eq_true_2.
    + rewrite Hcount; [|done|by eauto]. by rewrite Hr.
Qed.

Lemma ex_retitle_changesOther : changesOther ex_retitle.
Proof. exists "title". split; [done|]. vm_compute. eauto. Qed.

Lemma ex_control_ids : NoDup (ev_id <$> store_events ex_control).
Proof. apply (bool_decide_unpack _). vm_compute. exact I. Qed.

(** On the example store, Ann's copy [e1] gets one update and Bob's copy
    [e2] one removal. *)
Lemma onEventUpdate_reconciles_copies_witness :
  (count (updates "e1") (onEventUpdate ex_retitle ex_control) = 1
   ∧ count (removes "e1") (onEventUpdate ex_retitle ex_control) = 0)
  ∧ (count (removes "e2") (onEventUpdate ex_retitle ex_control) = 1
     ∧ count (updates "e2") (onEventUpdate ex_retitle ex_control) = 0).
Proof.
  split.
  - destruct (onEventUpdate_reconciles_copies ex_retitle ex_control ex_e0 ex_e1)
      as [Hupd _].
    + exact ex_retitle_changesOther.
    + reflexivity.
    + reflexivity.
    + exact ex_control_ids.
    + vm_compute. right. left.
    + reflexivity.
    + vm_compute. discriminate.
    + destruct (Hupd "p-ann") as (ops' & _ & _ & _ & H1 & H0).
      * reflexivity.
      * vm_compute. right. left.
      * exact (conj H1 H0).
  - destruct (onEventUpdate_reconciles_copies ex_retitle ex_control ex_e0 ex_e2)
      as [_ Hrem].
    + exact ex_retitle_changesOther.
    + reflexivity.
    + reflexivity.
    + exact ex_control_ids.
    + vm_compute. right. right. left.
    + reflexivity.
    + vm_compute. discriminate.
    + destruct Hrem as (_ & H1 & H0).
      * intros p [= <-]. vm_compute.
        intros Hin. repeat (apply elem_of_cons in Hin as [Hin|Hin];
          [discriminate|]). by apply elem_of_nil in Hin.
      * exact (conj H1 H0).
Defined.

(** On the example store a visibility-only update emits nothing. *)
Lemma onEventUpdate_visibility_only_witness :
  onEventUpdate ex_hide ex_control = [].
Proof.
  apply onEventUpdate_visibility_only. intros k [v Hv].
  destruct (decide (k = "visibility")) as [->|Hne]; [done|].
  unfold ex_hide in Hv. simpl in Hv.
  rewrite lookup_singleton_ne in Hv by done. discriminate.
Defined.

(** *** Removing the owner copy *)

(** C3. When the removed event, as the removed-document cache holds it, has
    access [owner], [onRemoveEvent] emits exactly one removal transaction for
    each copy the store still holds under the same [eventId], and nothing
    else; when its access is not [owner], it emits nothing. *)
Theorem onRemoveEvent_cascade ctx control removed :
  removedMap control !! rem_objectId ctx = Some removed →
  NoDup (ev_id <$> store_events control) →
  let out := onRemoveEvent ctx control in
  let copies :=
    filter (λ e, ev_eventId e = ev_eventId removed) (store_events control) in
  (ev_access removed = "owner" →
     length out = length copies
     ∧ ∀ cur, cur ∈ store_events control →
         ev_eventId cur = ev_eventId removed →
         createTxRemoveDoc (ev_class cur) (ev_space cur) (ev_id cur) ∈ out
         ∧ count (removes (ev_id cur)) out = 1)
  ∧ (ev_access removed ≠ "owner" → out = []).
Proof.
  intros Hrem Hnd out copies. subst out. unfold onRemoveEvent.
  rewrite Hrem. split.
  - intros Hacc. rewrite decide_False by (intros Hne; by apply Hne).
    unfold findAll. fold copies.
    rewrite (fold_left_push _
      (λ cur, Some (createTxRemoveDoc (ev_class cur) (ev_space cur)
                      (ev_id cur)))) by done.
    simpl. rewrite <- list_fmap_alt. rewrite length_fmap. split; [done|].
    intros cur Hcur Heid.
    assert (cur ∈ copies) as Hin by (by apply list_elem_of_filter).
    split; [apply list_elem_of_fmap; by exists cur|].
    rewrite count_fmap.
    rewrite (count_at_key ev_id copies cur).
    + unfold removes. simpl. by rewrite bool_decide_eq_true_2.
    + by apply NoDup_key_filter.
    + done.
    + intros y _. unfold removes. simpl. by intros ?%bool_decide_eq_true_1.
  - intros Hacc. by rewrite decide_True.
Qed.

(** On the example store, once the owner copy is gone, both reader copies
    are removed; removing a reader copy cascades nowhere. *)
Lemma onRemoveEvent_cascade_witness :
  (length (onRemoveEvent {| rem_objectId := "e0" |} ex_control_removed) = 2
   ∧ count (removes "e1")
       (onRemoveEvent {| rem_objectId := "e0" |} ex_control_removed) = 1
   ∧ count (removes "e2")
       (onRemoveEvent {| rem_objectId := "e0" |} ex_control_removed) = 1)
  ∧ onRemoveEvent {| rem_objectId := "e1" |} ex_control = [].
Proof.
  split.
  - destruct (onRemoveEvent_cascade {| rem_objectId := "e0" |}
                ex_control_removed ex_e0) as [Hown _].
    + reflexivity.
    + apply (bool_decide_unpack _). vm_compute. exact I.
    + destruct Hown as [Hlen Hall]; [reflexivity|].
      split; [exact Hlen|]. split.
      * apply (Hall ex_e1); [vm_compute; left|reflexivity].
      * apply (Hall ex_e2); [vm_compute; right; left|reflexivity].
  - destruct (onRemoveEvent_cascade {| rem_objectId := "e1" |}
                ex_control ex_e1) as [_ Hother].
    + reflexivity.
    + exact ex_control_ids.
    + apply Hother. vm_compute. discriminate.
Defined.

(** *** Calendar selection *)

Lemma ownedBy_nullish person c :
  cal_createdBy c ?? cal_modifiedBy c = person ↔ ownedBy person c.
Proof. unfold ownedBy, nullish. by destruct (cal_createdBy c). Qed.

Lemma filter_split_first {A} (P : A → Prop) `{!∀ x, Decision (P x)}
    (l1 l2 : list A) (x : A) :
  P x → (∀ y, y ∈ l1 → ¬ P y) →
  filter P (l1 ++ x :: l2) = x :: filter P l2.
Proof.
  intros Hx Hl1. rewrite filter_app, filter_cons_True by done.
  assert (filter P l1 = []) as ->; [|done].
  induction l1 as [|y l1 IH]; [done|].
  rewrite filter_cons_False by (apply Hl1; left).
  apply IH. intros z Hz. apply Hl1. by right.
Qed.

(** The claim as the specification words it fails: a calendar that the
    account modified last, but that another account created, is not
    considered. *)
Lemma getCalendar_last_modifier_ignored :
  cal_modifiedBy ex_shared_calendar = "acc-bob"
  ∧ getCalendar [ex_shared_calendar] "acc-bob" = None.
Proof. split; reflexivity. Qed.

(** C5, amended.  [getCalendar] considers exactly the calendars whose creator
    is the account or, when no creator is recorded, whose last modifier is the
    account.  Among those it returns the first one flagged [default]; failing
    that, the first one in input order; when there is none it returns
    [undefined], and [eventForNewParticipants] then produces no copy on behalf
    of that account. *)
Theorem getCalendar_selection calendars person :
  (∀ id, getCalendar calendars person = Some id →
     ∃ c, c ∈ calendars ∧ ownedBy person c ∧ cal_id c = id)
  ∧ (∀ l1 c l2, calendars = l1 ++ c :: l2 →
       ownedBy person c → cal_default c = Some true →
       (∀ c', c' ∈ l1 → ¬ (ownedBy person c' ∧ cal_default c' = Some true)) →
       getCalendar calendars person = Some (cal_id c))
  ∧ (∀ l1 c l2, calendars = l1 ++ c :: l2 →
       ownedBy person c → (∀ c', c' ∈ l1 → ¬ ownedBy person c') →
       (∀ c', c' ∈ calendars → ownedBy person c' →
              cal_default c' ≠ Some true) →
       getCalendar calendars person = Some (cal_id c))
  ∧ ((∀ c, c ∈ calendars → ¬ ownedBy person c) →
       getCalendar calendars person = None
       ∧ ∀ event np control,
           count (createsFor person)
             (eventForNewParticipants event np calendars control) = 0).
Proof.
  assert (∀ who,
    filter (λ c, cal_createdBy c ?? cal_modifiedBy c = who) calendars
    = filter (ownedBy who) calendars) as Hfilter.
  { intros who. apply list_filter_iff. intros c. apply ownedBy_nullish. }
  split_and!.
  - intros id. unfold getCalendar. rewrite Hfilter.
    destruct (Array_find _ _) as [c|] eqn:Hdef.
    + intros [= <-]. exists c.
      apply Array_find_Some in Hdef as (l1 & l2 & Hl & _ & _).
      assert (c ∈ filter (ownedBy person) calendars) as Hc
        by (rewrite Hl; apply elem_of_app; right; left).
      apply list_elem_of_filter in Hc as [Hown Hc]. done.
    + destruct (filter (ownedBy person) calendars) as [|c l] eqn:Hf; [done|].
      simpl. intros [= <-]. exists c.
      assert (c ∈ filter (ownedBy person) calendars) as Hc
        by (rewrite Hf; left).
      apply list_elem_of_filter in Hc as [Hown Hc]. done.
  - intros l1 c l2 -> Hown Hdef Hl1. unfold getCalendar.
    rewrite Hfilter, filter_app, filter_cons_True by done.
    rewrite (Array_find_first _ _ _ c); [done..|].
    intros c' [Hown' Hc']%list_elem_of_filter Hdef'. by apply (Hl1 c').
  - intros l1 c l2 Hl Hown Hl1 Hnodef. unfold getCalendar.
    rewrite Hfilter.
    destruct (Array_find _ _) as [d|] eqn:Hd.
    + exfalso. apply Array_find_Some in Hd as (k1 & k2 & Hk & Hdef & _).
      assert (d ∈ filter (ownedBy person) calendars) as Hin
        by (rewrite Hk; apply elem_of_app; right; left).
      apply list_elem_of_filter in Hin as [Hown' Hin].
      by apply (Hnodef d).
    + rewrite Hl. by rewrite filter_split_first.
  - intros Hnone.
    assert (getCalendar calendars person = None) as Hget.
    { unfold getCalendar. rewrite Hfilter.
      assert (filter (ownedBy person) calendars = []) as ->; [|done].
      apply head_None. change (Array_find (ownedBy person) calendars = None).
      by apply Array_find_None. }
    split; [done|]. intros event np control.
    rewrite eventForNewParticipants_steps. apply count_none.
    intros tx (part & _ & Hstep)%list_elem_of_omap.
    unfold copyStep in Hstep.
    destruct (Array_find _ _) as [acc|]; [|done].
    destruct (decide _); [done|].
    destruct (getCalendar calendars (acc_id acc)) as [cal|] eqn:Hcal; [|done].
    injection Hstep as <-. unfold createsFor, readerCopyTx. simpl.
    apply bool_decide_eq_false_2. intros [= Heq]. congruence.
Qed.

(** Cy's default external calendar wins over the plain one listed before
    it; Ann, with one plain calendar, gets that one; Bob has none. *)
Lemma getCalendar_selection_witness :
  getCalendar ex_cy_calendars "acc-cy" = Some "cal-cy-google"
  ∧ getCalendar ex_cy_calendars "acc-ann" = Some "cal-ann"
  ∧ getCalendar ex_cy_calendars "acc-bob" = None.
Proof.
  split_and!.
  - apply (proj1 (proj2 (getCalendar_selection ex_cy_calendars "acc-cy"))
             [ex_calendar "cal-ann" "acc-ann" false;
              ex_calendar "cal-cy" "acc-cy" false]
             {| cal_id := "cal-cy-google"; cal_createdBy := None;
                cal_modifiedBy := "acc-cy"; cal_hidden := false;
                cal_default := Some true |} []).
    + reflexivity.
    + reflexivity.
    + reflexivity.
    + intros c' Hc' [_ Hdef].
      repeat (apply elem_of_cons in Hc' as [->|Hc']; [discriminate|]).
      by apply elem_of_nil in Hc'.
  - apply (proj1 (proj2 (proj2 (getCalendar_selection ex_cy_calendars
                                  "acc-ann")))
             [] (ex_calendar "cal-ann" "acc-ann" false)
             [ex_calendar "cal-cy" "acc-cy" false;
              {| cal_id := "cal-cy-google"; cal_createdBy := None;
                 cal_modifiedBy := "acc-cy"; cal_hidden := false;
                 cal_default := Some true |}]).
    + reflexivity.
    + reflexivity.
    + intros c' Hc'. by apply elem_of_nil in Hc'.
    + intros c' Hc' Hown.
      repeat (apply elem_of_cons in Hc' as [->|Hc']; [discriminate|]).
      by apply elem_of_nil in Hc'.
  - apply (proj2 (proj2 (proj2 (getCalendar_selection ex_cy_calendars
                                  "acc-bob")))).
    intros c Hc.
    repeat (apply elem_of_cons in Hc as [->|Hc]; [discriminate|]).
    by apply elem_of_nil in Hc.
Defined.

(** *** Triggers that read the created document *)

Lemma count_omap_unique {A B} (p : B → bool) (f : A → option B)
    (l : list A) (x : A) (t : B) :
  NoDup l → x ∈ l → f x = Some t → p t = true →
  (∀ y t', y ∈ l → f y = Some t' → p t' = true → y = x) →
  count p (omap f l) = 1.
Proof.
  induction l as [|y l IH]; intros Hnd Hx Hfx Hpt Huniq;
    [by apply elem_of_nil in Hx|].
  apply NoDup_cons in Hnd as [Hy Hnd]. simpl.
  apply elem_of_cons in Hx as [<-|Hx].
  - rewrite Hfx. simpl. rewrite Hpt.
    rewrite count_none; [done|].
    intros t' (z & Hz & Hfz)%list_elem_of_omap.
    destruct (p t') eqn:Hpt'; [|done].
    exfalso. apply Hy. by rewrite <- (Huniq z t') by (done || by right).
  - assert (count p (omap f l) = 1) as Hl.
    { apply IH; [done..|]. intros z t' Hz. apply Huniq. by right. }
    destruct (f y) as [t'|] eqn:Hfy; [|done]. simpl.
    destruct (p t') eqn:Hpt'; [|done].
    exfalso. apply Hy. by rewrite (Huniq y t') by (done || by left).
Qed.

Lemma length_append (s t : string) :
  String.length (s +:+ t) = String.length s + String.length t.
Proof.
  induction s as [|a s IH]; [done|].
  change (String a s +:+ t) with (String a (s +:+ t)). simpl. by rewrite IH.
Qed.

(** Appending a fixed suffix loses nothing of the prefix. *)
Lemma append_suffix_inj (t s1 s2 : string) :
  s1 +:+ t = s2 +:+ t → s1 = s2.
Proof.
  revert s2. induction s1 as [|a s1 IH]; intros [|b s2] Heq.
  - done.
  - apply (f_equal String.length) in Heq.
    change (String b s2 +:+ t) with (String b (s2 +:+ t)) in Heq.
    change ("" +:+ t) with t in Heq.
    simpl in Heq. rewrite length_append in Heq. lia.
  - apply (f_equal String.length) in Heq.
    change (String a s1 +:+ t) with (String a (s1 +:+ t)) in Heq.
    change ("" +:+ t) with t in Heq.
    simpl in Heq. rewrite length_append in Heq. lia.
  - change (String a s1 +:+ t) with (String a (s1 +:+ t)) in Heq.
    change (String b s2 +:+ t) with (String b (s2 +:+ t)) in Heq.
    injection Heq as -> Heq. f_equal. by apply IH.
Qed.

Section TriggerProperties.

Context {TxIn : Type}.
Context `{!CreateDoc2Doc TxIn Event, !CreateDoc2Doc TxIn PersonAccount}.
Variable extractTx : TxIn → TxIn.
Variable calendar_class_Calendar calendar_space_Calendar : Ref.
Variable getHTMLPresenter : Ref → Hierarchy → option PresenterMixin.
Variable getTextPresenter : Ref → Hierarchy → option PresenterMixin.
Variable getResource : string → Doc → TriggerControl → string.

(** Past its gate, [onEventCreate] runs one round per participant. *)
Lemma onEventCreate_omap (ctx : TxIn) control :
  ev_access (createDoc2Doc ctx) = "owner" →
  onEventCreate ctx control
  = omap (copyFor control (createDoc2Doc ctx))
      (ev_participants (createDoc2Doc ctx)).
Proof.
  intros Hacc. unfold onEventCreate.
  rewrite decide_False by (intros Hne; by apply Hne).
  rewrite (fold_left_push _ (copyFor control (createDoc2Doc ctx))); [done|].
  intros res part Hpart. unfold copyFor.
  rewrite <- (copyStep_participant control _ _ part Hpart).
  unfold copyStep, creatorOf, visibleCalendars.
  destruct (Array_find _ _) as [acc|]; simpl; [|by rewrite app_nil_r].
  destruct (decide _); simpl; [by rewrite app_nil_r|].
  destruct (getCalendar _ _); simpl; [done|by rewrite app_nil_r].
Qed.

Lemma copyFor_Some control event part tx :
  copyFor control event part = Some tx ↔
  ∃ acc calendar,
    accountOf control part = Some acc
    ∧ acc_id acc ≠ creatorOf event
    ∧ getCalendar (visibleCalendars control) (acc_id acc) = Some calendar
    ∧ tx = readerCopyTx event calendar (acc_id acc).
Proof.
  unfold copyFor, copyStep, accountOf. split.
  - destruct (Array_find _ _) as [acc|]; [|done].
    destruct (decide _) as [|Hne]; [done|].
    destruct (getCalendar _ _) as [calendar|] eqn:Hcal; [|done].
    intros [= <-]. by exists acc, calendar.
  - intros (acc & calendar & -> & Hne & -> & ->).
    by rewrite decide_False.
Qed.

(** C2. When an event is created with access [owner], the participants for
    whom [onEventCreate] emits a reader copy are exactly the participants
    whose account resolves, is not the creator's and has a calendar to
    select; and every emitted transaction is such a copy: a nested creation,
    under the parent record of the owner event, of the event's data (without
    class, space and attachment fields) with access [reader] and the selected
    calendar, on behalf of the participant's account. *)
Theorem onEventCreate_reader_copies (ctx : TxIn) control :
  let event : Event := createDoc2Doc ctx in
  let out := onEventCreate ctx control in
  ev_access event = "owner" →
  (∀ part, part ∈ ev_participants event →
     (∃ acc, accountOf control part = Some acc
             ∧ ∃ tx, tx ∈ out ∧ createsFor (acc_id acc) tx = true)
     ↔ (∃ acc calendar,
          accountOf control part = Some acc
          ∧ acc_id acc ≠ creatorOf event
          ∧ getCalendar (visibleCalendars control) (acc_id acc)
            = Some calendar))
  ∧ (∀ tx, tx ∈ out →
       ∃ part acc calendar data,
         part ∈ ev_participants event
         ∧ accountOf control part = Some acc
         ∧ acc_id acc ≠ creatorOf event
         ∧ getCalendar (visibleCalendars control) (acc_id acc) = Some calendar
         ∧ tx = createTxCollectionCUD (ev_attachedToClass event)
                  (ev_attachedTo event) (ev_space event) (ev_collection event)
                  (createTxCreateDoc (ev_class event) (ev_space event)
                     (EventAttrs data) None None (Some (acc_id acc)))
                  None (Some (acc_id acc))
         ∧ d_access data = "reader"
         ∧ d_calendar data = calendar
         ∧ d_id data = ev_id event
         ∧ d_modifiedBy data = ev_modifiedBy event
         ∧ d_createdBy data = ev_createdBy event
         ∧ d_eventId data = ev_eventId event
         ∧ d_participants data = ev_participants event
         ∧ d_other data = ev_other event).
Proof.
  intros event out Hacc. subst out.
  rewrite (onEventCreate_omap ctx control Hacc). fold event. split.
  - intros part Hpart. split.
    + intros (acc & Hacc' & tx & Htx & Hby).
      apply list_elem_of_omap in Htx as (part' & _ & Hcopy).
      apply copyFor_Some in Hcopy as (acc' & cal & _ & Hne & Hcal & ->).
      unfold createsFor, readerCopyTx in Hby. simpl in Hby.
      apply bool_decide_eq_true_1 in Hby. injection Hby as Hid.
      exists acc, cal. rewrite <- Hid. done.
    + intros (acc & cal & Hacc' & Hne & Hcal).
      exists acc. split; [done|].
      exists (readerCopyTx event cal (acc_id acc)). split.
      * apply list_elem_of_omap. exists part. split; [done|].
        apply copyFor_Some. by exists acc, cal.
      * unfold createsFor, readerCopyTx. simpl.
        by apply bool_decide_eq_true_2.
  - intros tx (part & Hpart & Hcopy)%list_elem_of_omap.
    apply copyFor_Some in Hcopy as (acc & cal & Hacc' & Hne & Hcal & ->).
    exists part, acc, cal, (spread_with (rest_attr event) cal "reader").
    split_and!; done.
Qed.

(** C7. An event created with an access other than [owner] makes
    [onEventCreate] emit nothing; an update whose target event is not in the
    store, or is stored with an access other than [owner], makes
    [onEventUpdate] emit nothing. *)
Theorem non_owner_emits_nothing :
  (∀ (ctx : TxIn) control,
     ev_access (createDoc2Doc ctx) ≠ "owner" → onEventCreate ctx control = [])
  ∧ (∀ ctx control,
       storedEvent control (upd_objectId ctx) = None
       ∨ (∃ event, storedEvent control (upd_objectId ctx) = Some event
                   ∧ ev_access event ≠ "owner") →
       onEventUpdate ctx control = []).
Proof.
  split.
  - intros ctx control Hacc. unfold onEventCreate. by rewrite decide_True.
  - intros ctx control Hev. unfold onEventUpdate.
    destruct (decide _); [done|].
    unfold storedEvent in Hev. destruct Hev as [->|(event & -> & Hacc)].
    + done.
    + by rewrite decide_True.
Qed.

(** C8. For a transaction that creates a person account,
    [OnPersonAccountCreate] emits exactly one transaction.  It creates a
    calendar named after the account's email, not hidden and public, on behalf
    of the account, under an id that is the account id followed by
    [_calendar]: the same account always gives the same id, and two accounts
    never share one. *)
Theorem OnPersonAccountCreate_calendar :
  (∀ (tx : TxIn) control,
     let user : PersonAccount := createDoc2Doc (extractTx tx) in
     ∃ id,
       OnPersonAccountCreate extractTx calendar_class_Calendar
         calendar_space_Calendar tx control
       = [createTxCreateDoc calendar_class_Calendar calendar_space_Calendar
            (CalendarAttrs (acc_email user) false "public")
            (Some id) None (Some (acc_id user))]
       ∧ id = acc_id user +:+ "_calendar")
  ∧ (∀ (tx1 tx2 : TxIn) control1 control2,
       let user1 : PersonAccount := createDoc2Doc (extractTx tx1) in
       let user2 : PersonAccount := createDoc2Doc (extractTx tx2) in
       objectIdOf <$> OnPersonAccountCreate extractTx calendar_class_Calendar
                        calendar_space_Calendar tx1 control1
       = objectIdOf <$> OnPersonAccountCreate extractTx calendar_class_Calendar
                          calendar_space_Calendar tx2 control2
       ↔ acc_id user1 = acc_id user2).
Proof.
  split.
  - intros tx control user. eexists. split; reflexivity.
  - intros tx1 tx2 control1 control2 user1 user2.
    unfold OnPersonAccountCreate. simpl. fold user1 user2. split.
    + intros [= Heq]. by apply append_suffix_inj in Heq.
    + by intros ->.
Qed.

(** *** The presenters *)

Lemma findAll_first_None {A} (docs : list A) (query : A → Prop)
    `{!∀ x, Decision (query x)} :
  findAll docs query (Some 1) !! 0 = None ↔ ∀ d, d ∈ docs → ¬ query d.
Proof.
  unfold findAll. rewrite <- (Array_find_None query docs). unfold Array_find.
  by destruct (filter query docs).
Qed.

Lemma findAll_first_Some {A} (docs : list A) (query : A → Prop)
    `{!∀ x, Decision (query x)} (l1 l2 : list A) (d : A) :
  docs = l1 ++ d :: l2 → query d → (∀ y, y ∈ l1 → ¬ query y) →
  findAll docs query (Some 1) !! 0 = Some d.
Proof.
  intros -> Hd Hl1. unfold findAll. by rewrite filter_split_first.
Qed.

(** C9. For an event, each presenter helper returns [undefined] when the store
    holds no record of the attached class under the attached id, and when no
    presenter is registered for the class of the record found; otherwise it
    returns what the registered presenter returns for the first such record.
    This optional string is the whole result of a helper: it hands no
    transaction to the host and has no store to change. *)
Theorem Reminder_presenters (doc : Event) control :
  let attached (d : Doc) :=
    isDerived (hierarchy control) (doc_class d) (ev_attachedToClass doc) = true
    ∧ doc_id d = ev_attachedTo doc in
  let html := ReminderHTMLPresenter getHTMLPresenter getResource doc control in
  let text := ReminderTextPresenter getTextPresenter getResource doc control in
  ((∀ d, d ∈ store_docs control → ¬ attached d) → html = None ∧ text = None)
  ∧ (∀ l1 target l2,
       store_docs control = l1 ++ target :: l2 →
       attached target → (∀ d, d ∈ l1 → ¬ attached d) →
       html = match getHTMLPresenter (doc_class target) (hierarchy control) with
              | None => None
              | Some p => Some (getResource (presenter p) target control)
              end
       ∧ text = match getTextPresenter (doc_class target) (hierarchy control)
                with
                | None => None
                | Some p => Some (getResource (presenter p) target control)
                end).
Proof.
  intros attached html text. subst html text.
  unfold ReminderHTMLPresenter, ReminderTextPresenter. split.
  - intros Hnone.
    by rewrite (proj2 (findAll_first_None (store_docs control) attached) Hnone).
  - intros l1 target l2 Hdocs Htarget Hl1.
    by rewrite (findAll_first_Some (store_docs control) attached l1 l2 target).
Qed.

(** *** Updates reach the participants without a copy *)

Lemma count_reconcile_creates control event ops acc (sibs : list Event) :
  count (createsFor acc) (reconcileTx control event ops <$> sibs) = 0.
Proof.
  apply count_none. intros tx (ev & -> & _)%list_elem_of_fmap.
  unfold reconcileTx.
  destruct (holder control ev) as [p|]; [destruct (decide _)|]; done.
Qed.

(** C6, amended.  When an update of an owner event changes a field other
    than [visibility], a participant to whom no sibling copy resolves gets
    exactly one creation, on behalf of the participant's account, provided the
    account resolves, is not the event creator's and has a calendar to select;
    when the account is the creator's or has no calendar, nothing is created on
    its behalf.  The creations are those [onEventCreate] emits for the same
    event. *)
Theorem onEventUpdate_new_participants ctx control event part :
  changesOther ctx →
  storedEvent control (upd_objectId ctx) = Some event →
  ev_access event = "owner" →
  NoDup (acc_id <$> store_accounts control) →
  part ∈ ev_participants event →
  (∀ ev, ev ∈ store_events control → ev_eventId ev = ev_eventId event →
         ev_id ev ≠ ev_id event → holder control ev ≠ Some part) →
  let out := onEventUpdate ctx control in
  (∀ acc calendar,
     accountOf control part = Some acc →
     acc_id acc ≠ creatorOf event →
     getCalendar (visibleCalendars control) (acc_id acc) = Some calendar →
     readerCopyTx event calendar (acc_id acc) ∈ out
     ∧ count (createsFor (acc_id acc)) out = 1)
  ∧ (∀ acc,
       accountOf control part = Some acc →
       acc_id acc = creatorOf event
       ∨ getCalendar (visibleCalendars control) (acc_id acc) = None →
       count (createsFor (acc_id acc)) out = 0)
  ∧ (∀ (cctx : TxIn) tx acc,
       createDoc2Doc cctx = event →
       tx ∈ out → createsFor acc tx = true →
       tx ∈ onEventCreate cctx control).
Proof.
  intros Hops Hev Hacc Hnd Hpart Hnocopy out. subst out.
  rewrite (onEventUpdate_eq ctx control event Hops Hev Hacc).
  destruct (remaining_spec control event) as [Hrnd Hrem].
  assert (part ∈ remaining control event) as Hpr.
  { apply Hrem. split; [done|].
    intros ev (? & ? & ?)%siblings_elem. by apply Hnocopy. }
  split_and!.
  - intros acc cal Hacc' Hne Hcal.
    assert (copyFor control event part
            = Some (readerCopyTx event cal (acc_id acc))) as Hcopy
      by (apply copyFor_Some; by exists acc, cal).
    split.
    + apply elem_of_app. right. apply list_elem_of_omap. by exists part.
    + rewrite count_app, count_reconcile_creates. simpl.
      apply (count_omap_unique _ _ _ part (readerCopyTx event cal (acc_id acc)));
        [done..| |].
      * unfold createsFor, readerCopyTx. simpl. by apply bool_decide_eq_true_2.
      * intros part' tx' _ Hcopy' Hby.
        apply copyFor_Some in Hcopy' as (acc' & cal' & Hacc'' & _ & _ & ->).
        unfold createsFor, readerCopyTx in Hby. simpl in Hby.
        apply bool_decide_eq_true_1 in Hby. injection Hby as Hid.
        unfold accountOf in Hacc', Hacc''.
        apply Array_find_Some in Hacc' as (k1 & k2 & Hk & Hp & _).
        apply Array_find_Some in Hacc'' as (k1' & k2' & Hk' & Hp' & _).
        assert (acc' = acc) as ->.
        { apply (key_unique_inj acc_id (store_accounts control)); [done| | |done].
          - rewrite Hk'. apply elem_of_app. right. left.
          - rewrite Hk. apply elem_of_app. right. left. }
        congruence.
  - intros acc Hacc' Hskip.
    rewrite count_app, count_reconcile_creates. simpl.
    apply count_none. intros tx' (part' & _ & Hcopy')%list_elem_of_omap.
    apply copyFor_Some in Hcopy' as (acc' & cal' & _ & Hne' & Hcal' & ->).
    unfold createsFor, readerCopyTx. simpl.
    apply bool_decide_eq_false_2. intros [= Hid]. rewrite Hid in *.
    destruct Hskip as [?|Hnone]; [done|congruence].
  - intros cctx tx acc Hdoc Htx Hby.
    rewrite onEventCreate_omap by (by rewrite Hdoc). rewrite Hdoc.
    apply elem_of_app in Htx as [Htx|Htx].
    + exfalso. apply list_elem_of_fmap in Htx as (ev & -> & _).
      revert Hby. unfold reconcileTx.
      destruct (holder control ev) as [p|]; [destruct (decide _)|]; done.
    + apply list_elem_of_omap in Htx as (part' & Hpart' & Hcopy').
      apply list_elem_of_omap. exists part'. split; [|done].
      by apply Hrem in Hpart' as [? _].
Qed.

End TriggerProperties.

(** *** The triggers on the example store *)

(** Creating [e0]: Cy gets a copy; Eve, whose only calendar is hidden, gets
    none. *)
Lemma onEventCreate_reader_copies_witness :
  (∃ acc, accountOf ex_control "p-cy" = Some acc
          ∧ ∃ tx, tx ∈ @onEventCreate _ ex_createDoc2Doc ex_e0 ex_control
                  ∧ createsFor (acc_id acc) tx = true)
  ∧ ¬ (∃ acc, accountOf ex_control "p-eve" = Some acc
              ∧ ∃ tx, tx ∈ @onEventCreate _ ex_createDoc2Doc ex_e0 ex_control
                      ∧ createsFor (acc_id acc) tx = true).
Proof.
  destruct (@onEventCreate_reader_copies _ ex_createDoc2Doc ex_e0 ex_control)
    as [Hset _]; [reflexivity|].
  split.
  - apply (Hset "p-cy").
    + vm_compute. do 2 right. left.
    + exists (ex_account "acc-cy" "p-cy"), "cal-cy".
      split_and!; [reflexivity|vm_compute; discriminate|reflexivity].
  - intros Hout. apply (Hset "p-eve") in Hout.
    + destruct Hout as (acc & cal & Hacc & _ & Hcal).
      vm_compute in Hacc. injection Hacc as <-. vm_compute in Hcal.
      discriminate.
    + vm_compute. do 4 right. left.
Defined.

(** Creating the reader copy [e1] emits nothing, and so does updating it. *)
Lemma non_owner_emits_nothing_witness :
  @onEventCreate _ ex_createDoc2Doc ex_e1 ex_control = []
  ∧ onEventUpdate {| upd_objectId := "e1";
                     upd_operations := {[ "title" := VStr "Mine" ]} |}
      ex_control = []
  ∧ onEventUpdate {| upd_objectId := "e7";
                     upd_operations := {[ "title" := VStr "Mine" ]} |}
      ex_control = [].
Proof.
  destruct (@non_owner_emits_nothing _ ex_createDoc2Doc) as [Hcreate Hupdate].
  split_and!.
  - apply Hcreate. vm_compute. discriminate.
  - apply Hupdate. right. exists ex_e1. split; [reflexivity|].
    vm_compute. discriminate.
  - apply Hupdate. left. reflexivity.
Defined.

(** The event attached to the stored issue is rendered by the issue's HTML
    presenter and has no text rendering; the orphan event has neither. *)
Lemma Reminder_presenters_witness :
  (ReminderHTMLPresenter ex_getHTMLPresenter ex_getResource ex_e0 ex_control
   = Some "<a>task-1</a>"
   ∧ ReminderTextPresenter ex_getTextPresenter ex_getResource ex_e0 ex_control
     = None)
  ∧ (ReminderHTMLPresenter ex_getHTMLPresenter ex_getResource ex_orphan
       ex_control = None
     ∧ ReminderTextPresenter ex_getTextPresenter ex_getResource ex_orphan
         ex_control = None).
Proof.
  split.
  - destruct (Reminder_presenters ex_getHTMLPresenter ex_getTextPresenter
                ex_getResource ex_e0 ex_control) as [_ Hfound].
    apply (Hfound [] {| doc_id := "task-1"; doc_class := "tracker:class:Issue" |}
             []).
    + reflexivity.
    + split; reflexivity.
    + intros d Hd. by apply elem_of_nil in Hd.
  - destruct (Reminder_presenters ex_getHTMLPresenter ex_getTextPresenter
                ex_getResource ex_orphan ex_control) as [Hmissing _].
    apply Hmissing. intros d Hd [_ Hid].
    apply list_elem_of_singleton in Hd as ->. discriminate.
Defined.

Lemma ex_control_siblings_not part ev :
  part ≠ "p-owner" → part ≠ "p-ann" → part ≠ "p-bob" →
  ev ∈ store_events ex_control → holder ex_control ev ≠ Some part.
Proof.
  intros Ho Ha Hb Hev. simpl in Hev.
  apply elem_of_cons in Hev as [->|Hev];
    [vm_compute; congruence|].
  apply elem_of_cons in Hev as [->|Hev];
    [vm_compute; congruence|].
  apply list_elem_of_singleton in Hev as ->. vm_compute. congruence.
Qed.

(** The claim as the specification words it fails: on a visibility-only
    update of the owner event, Cy, who is invited, has an account and a
    calendar but no copy, gets no creation. *)
Lemma hidden_update_creates_no_copy :
  storedEvent ex_control (upd_objectId ex_hide) = Some ex_e0
  ∧ ev_access ex_e0 = "owner"
  ∧ "p-cy" ∈ ev_participants ex_e0
  ∧ (∀ ev, ev ∈ store_events ex_control → holder ex_control ev ≠ Some "p-cy")
  ∧ copyFor ex_control ex_e0 "p-cy"
    = Some (readerCopyTx ex_e0 "cal-cy" "acc-cy")
  ∧ count (createsFor "acc-cy") (onEventUpdate ex_hide ex_control) = 0.
Proof.
  split_and!; try reflexivity.
  - vm_compute. do 2 right. left.
  - intros ev. by apply ex_control_siblings_not.
Qed.

(** Retitling [e0]: Cy, invited and without a copy, gets one creation; Eve,
    whose only calendar is hidden, gets none. *)
Lemma onEventUpdate_new_participants_witness :
  (readerCopyTx ex_e0 "cal-cy" "acc-cy" ∈ onEventUpdate ex_retitle ex_control
   ∧ count (createsFor "acc-cy") (onEventUpdate ex_retitle ex_control) = 1)
  ∧ count (createsFor "acc-eve") (onEventUpdate ex_retitle ex_control) = 0.
Proof.
  split.
  - destruct (@onEventUpdate_new_participants _ ex_createDoc2Doc ex_retitle
                ex_control ex_e0 "p-cy") as [Hone _].
    + exact ex_retitle_changesOther.
    + reflexivity.
    + reflexivity.
    + apply (bool_decide_unpack _). vm_compute. exact I.
    + vm_compute. do 2 right. left.
    + intros ev Hev _ _. by apply ex_control_siblings_not.
    + apply (Hone (ex_account "acc-cy" "p-cy") "cal-cy");
        [reflexivity|vm_compute; discriminate|reflexivity].
  - destruct (@onEventUpdate_new_participants _ ex_createDoc2Doc ex_retitle
                ex_control ex_e0 "p-eve") as (_ & Hnone & _).
    + exact ex_retitle_changesOther.
    + reflexivity.
    + reflexivity.
    + apply (bool_decide_unpack _). vm_compute. exact I.
    + vm_compute. do 4 right. left.
    + intros ev Hev _ _. by apply ex_control_siblings_not.
    + apply (Hnone (ex_account "acc-eve" "p-eve")); [reflexivity|].
      right. reflexivity.
Defined.

(** ** Further properties of the calendar triggers *)

(** *** What the update trigger can emit *)

Lemma changesOther_of_keys (ctx : TxUpdateDoc) :
  length (Object_keys (delete "visibility" (upd_operations ctx))) ≠ 0 →
  changesOther ctx.
Proof.
  intros Hlen.
  destruct (map_choose (delete "visibility" (upd_operations ctx)))
    as (k & v & Hk).
  { intros Hempty. apply Hlen. unfold Object_keys.
    by rewrite Hempty, map_to_list_empty. }
  exists k. destruct (decide (k = "visibility")) as [->|Hne].
  - by rewrite lookup_delete_eq in Hk.
  - split; [done|]. rewrite lookup_delete_ne in Hk by done. by rewrite Hk.
Qed.

(** [onEventUpdate] either emits nothing or has passed its three gates. *)
Lemma onEventUpdate_cases ctx control :
  onEventUpdate ctx control = []
  ∨ ∃ event,
      changesOther ctx
      ∧ storedEvent control (upd_objectId ctx) = Some event
      ∧ ev_access event = "owner"
      ∧ onEventUpdate ctx control
        = (reconcileTx control event
             (delete "visibility" (upd_operations ctx))
             <$> siblings control event)
          ++ omap (copyFor control event) (remaining control event).
Proof.
  destruct (decide (length (Object_keys
              (delete "visibility" (upd_operations ctx))) = 0)) as [Hz|Hnz].
  { left. unfold onEventUpdate. by rewrite decide_True. }
  apply changesOther_of_keys in Hnz.
  destruct (storedEvent control (upd_objectId ctx)) as [event|] eqn:Hev.
  - destruct (decide (ev_access event = "owner")) as [Hacc|Hacc].
    + right. exists event. split_and!; [done..|].
      by apply onEventUpdate_eq.
    + left. unfold onEventUpdate.
      rewrite decide_False by (by apply otherOps_nonempty).
      unfold storedEvent in Hev. rewrite Hev. by rewrite decide_True.
  - left. unfold onEventUpdate.
    rewrite decide_False by (by apply otherOps_nonempty).
    unfold storedEvent in Hev. by rewrite Hev.
Qed.

Lemma storedEvent_Some control id event :
  storedEvent control id = Some event →
  ev_id event = id ∧ event ∈ store_events control.
Proof.
  unfold storedEvent, findAll. intros Hev.
  assert (event ∈ filter (λ e, ev_id e = id) (store_events control)) as Hin.
  { destruct (filter _ _) as [|e l]; [done|]. simpl in Hev.
    injection Hev as ->. left. }
  by apply list_elem_of_filter in Hin.
Qed.

(** X1. No transaction [onEventUpdate] emits updates or removes the document
    the incoming update is about: the edited event itself is left alone. *)
Theorem onEventUpdate_spares_edited ctx control tx :
  tx ∈ onEventUpdate ctx control →
  updates (upd_objectId ctx) tx = false
  ∧ removes (upd_objectId ctx) tx = false.
Proof.
  destruct (onEventUpdate_cases ctx control)
    as [->|(event & _ & Hev & _ & ->)].
  { intros Htx. by apply elem_of_nil in Htx. }
  apply storedEvent_Some in Hev as [<- _].
  intros [Htx|Htx]%elem_of_app.
  - apply list_elem_of_fmap in Htx as (ev & -> & Hsib).
    apply siblings_elem in Hsib as (_ & _ & Hne).
    unfold reconcileTx.
    destruct (holder control ev) as [p|]; [destruct (decide _)|];
      unfold updates, removes, updateTx, removeTx; simpl;
      (split; [done || by apply bool_decide_eq_false_2
              |done || by apply bool_decide_eq_false_2]).
  - apply list_elem_of_omap in Htx as (part & _ & Hcopy).
    by apply copyFor_readerCopy in Hcopy as (calendar & acc & ->).
Qed.

Lemma getCalendar_Some_owned calendars person id :
  getCalendar calendars person = Some id →
  ∃ c, c ∈ calendars ∧ ownedBy person c ∧ cal_id c = id.
Proof.
  unfold getCalendar.
  assert (∀ c, c ∈ filter (λ c, cal_createdBy c ?? cal_modifiedBy c = person)
                     calendars → c ∈ calendars ∧ ownedBy person c) as Hf.
  { intros c [Hown Hc]%list_elem_of_filter. split; [done|].
    by apply ownedBy_nullish. }
  destruct (Array_find _ _) as [c|] eqn:Hdef.
  - intros [= <-]. exists c.
    apply Array_find_Some in Hdef as (l1 & l2 & Hl & _ & _).
    destruct (Hf c) as [? ?]; [|done].
    rewrite Hl. apply elem_of_app. right. left.
  - destruct (filter _ calendars) as [|c l] eqn:Hl; [done|].
    simpl. intros [= <-]. exists c.
    destruct (Hf c) as [? ?]; [left|done].
Qed.

Lemma accountOf_Some control part acc :
  accountOf control part = Some acc →
  acc ∈ store_accounts control ∧ acc_person acc = part.
Proof.
  intros (l1 & l2 & Hl & Hp & _)%Array_find_Some. split; [|done].
  rewrite Hl. apply elem_of_app. right. left.
Qed.

(** The creations of [onEventUpdate] are the copies for the participants
    that are left. *)
Lemma onEventUpdate_creations ctx control tx acc :
  tx ∈ onEventUpdate ctx control → createsFor acc tx = true →
  ∃ event part,
    storedEvent control (upd_objectId ctx) = Some event
    ∧ part ∈ remaining control event
    ∧ copyFor control event part = Some tx.
Proof.
  destruct (onEventUpdate_cases ctx control)
    as [->|(event & _ & Hev & _ & ->)].
  { intros Htx. by apply elem_of_nil in Htx. }
  intros [Htx|Htx]%elem_of_app Hby.
  - exfalso. apply list_elem_of_fmap in Htx as (ev & -> & _).
    revert Hby. unfold reconcileTx.
    destruct (holder control ev) as [p|]; [destruct (decide _)|]; done.
  - apply list_elem_of_omap in Htx as (part & Hpart & Hcopy).
    by exists event, part.
Qed.

Section FurtherProperties.

Context {TxIn : Type}.
Context `{!CreateDoc2Doc TxIn Event}.

(** X2. The account that created the event (or last modified it, when no
    creator is recorded) never gets a copy: neither [onEventCreate] nor
    [onEventUpdate] emits a creation on its behalf. *)
Theorem creator_gets_no_copy :
  (∀ (ctx : TxIn) control,
     count (createsFor (creatorOf (createDoc2Doc ctx)))
       (onEventCreate ctx control) = 0)
  ∧ (∀ ctx control event,
       storedEvent control (upd_objectId ctx) = Some event →
       count (createsFor (creatorOf event)) (onEventUpdate ctx control) = 0).
Proof.
  assert (∀ control event part tx,
    copyFor control event part = Some tx →
    createsFor (creatorOf event) tx = false) as Hcopy.
  { intros control event part tx
      (acc & cal & _ & Hne & _ & ->)%copyFor_Some.
    unfold createsFor, readerCopyTx. simpl.
    apply bool_decide_eq_false_2. by intros [= ?]. }
  split.
  - intros ctx control.
    destruct (decide (ev_access (createDoc2Doc ctx) = "owner")) as [Hacc|Hacc].
    + rewrite onEventCreate_omap by done. apply count_none.
      intros tx (part & _ & Hc)%list_elem_of_omap. by eapply Hcopy.
    + unfold onEventCreate. by rewrite decide_True.
  - intros ctx control event Hev. apply count_none. intros tx Htx.
    destruct (createsFor (creatorOf event) tx) eqn:Hby; [|done].
    destruct (onEventUpdate_creations ctx control tx _ Htx Hby)
      as (event' & part & Hev' & _ & Hc).
    assert (event' = event) as -> by congruence.
    rewrite (Hcopy _ _ _ _ Hc) in Hby. done.
Qed.

(** X3. A participant to whom a sibling copy already resolves gets that copy
    updated and no second copy: [onEventUpdate] emits no creation on behalf of
    the participant's account. *)
Theorem onEventUpdate_no_second_copy ctx control event ev part acc :
  storedEvent control (upd_objectId ctx) = Some event →
  NoDup (acc_id <$> store_accounts control) →
  ev ∈ store_events control →
  ev_eventId ev = ev_eventId event →
  ev_id ev ≠ ev_id event →
  holder control ev = Some part →
  part ∈ ev_participants event →
  accountOf control part = Some acc →
  count (createsFor (acc_id acc)) (onEventUpdate ctx control) = 0.
Proof.
  intros Hev Hnd Hin Heid Hid Hholder Hpart Hacc.
  apply count_none. intros tx Htx.
  destruct (createsFor (acc_id acc) tx) eqn:Hby; [|done]. exfalso.
  destruct (onEventUpdate_creations ctx control tx _ Htx Hby)
    as (event' & part' & Hev' & Hrem & Hc).
  assert (event' = event) as -> by congruence.
  apply copyFor_Some in Hc as (acc' & cal & Hacc' & _ & _ & ->).
  unfold createsFor, readerCopyTx in Hby. simpl in Hby.
  apply bool_decide_eq_true_1 in Hby. injection Hby as Hsame.
  apply accountOf_Some in Hacc as [Hin1 Hp1].
  apply accountOf_Some in Hacc' as [Hin2 Hp2].
  assert (acc' = acc) as ->
    by (by apply (key_unique_inj acc_id (store_accounts control))).
  assert (part' = part) as -> by congruence.
  apply remaining_spec in Hrem as [_ Hnone].
  apply (Hnone ev); [by apply siblings_elem|done].
Qed.

(** X4. A copy is only ever created in a calendar of the store that is not
    hidden and that [getCalendar] takes to be the account's own: this holds
    for every creation of [onEventCreate] and of [onEventUpdate]. *)
Theorem copies_land_in_own_visible_calendar (ctx : TxIn) uctx control tx acc :
  tx ∈ onEventCreate ctx control ∨ tx ∈ onEventUpdate uctx control →
  createsFor acc tx = true →
  ∃ c, c ∈ store_calendars control
       ∧ cal_hidden c = false
       ∧ ownedBy acc c
       ∧ createdCalendar tx = Some (cal_id c).
Proof.
  assert (∀ event part,
    copyFor control event part = Some tx → createsFor acc tx = true →
    ∃ c, c ∈ store_calendars control ∧ cal_hidden c = false
         ∧ ownedBy acc c ∧ createdCalendar tx = Some (cal_id c)) as Hcopy.
  { intros event part (acc' & cal & _ & _ & Hcal & ->)%copyFor_Some Hby.
    unfold createsFor, readerCopyTx in Hby. simpl in Hby.
    apply bool_decide_eq_true_1 in Hby. injection Hby as Hsame.
    apply getCalendar_Some_owned in Hcal as (c & Hc & Hown & <-).
    unfold visibleCalendars, findAll in Hc.
    apply list_elem_of_filter in Hc as [Hvis Hc].
    rewrite Hsame in Hown. exists c. split_and!; [done..|reflexivity]. }
  intros [Htx|Htx] Hby.
  - destruct (decide (ev_access (createDoc2Doc ctx) = "owner")) as [Hacc|Hacc].
    + rewrite onEventCreate_omap in Htx by done.
      apply list_elem_of_omap in Htx as (part & _ & Hc). by eapply Hcopy.
    + unfold onEventCreate in Htx. rewrite decide_True in Htx by done.
      by apply elem_of_nil in Htx.
  - destruct (onEventUpdate_creations uctx control tx _ Htx Hby)
      as (event & part & _ & _ & Hc). by eapply Hcopy.
Qed.

(** X5. The copies the triggers create do not set the create trigger off
    again: whatever access a creation of [onEventCreate] or [onEventUpdate]
    gives the new event, [onEventCreate] emits nothing for an event created
    with that access. *)
Theorem created_copies_do_not_retrigger (ctx : TxIn) uctx control tx a :
  tx ∈ onEventCreate ctx control ∨ tx ∈ onEventUpdate uctx control →
  createdAccess tx = Some a →
  ∀ (ctx' : TxIn) control',
    ev_access (createDoc2Doc ctx') = a → onEventCreate ctx' control' = [].
Proof.
  assert (∀ event part,
    copyFor control event part = Some tx → createdAccess tx = Some a →
    a = "reader") as Hcopy.
  { intros event part (acc' & cal & _ & _ & _ & ->)%copyFor_Some.
    unfold createdAccess, readerCopyTx. simpl. by intros [= <-]. }
  intros Htx Ha ctx' control' Hacc'.
  assert (a = "reader") as ->.
  { destruct Htx as [Htx|Htx].
    - destruct (decide (ev_access (createDoc2Doc ctx) = "owner")) as [Ho|Ho].
      + rewrite onEventCreate_omap in Htx by done.
        apply list_elem_of_omap in Htx as (part & _ & Hc). by eapply Hcopy.
      + unfold onEventCreate in Htx. rewrite decide_True in Htx by done.
        by apply elem_of_nil in Htx.
    - destruct (onEventUpdate_cases uctx control)
        as [Hnil|(event & _ & _ & _ & Heq)].
      { rewrite Hnil in Htx. by apply elem_of_nil in Htx. }
      rewrite Heq in Htx. apply elem_of_app in Htx as [Htx|Htx].
      + exfalso. apply list_elem_of_fmap in Htx as (ev & -> & _).
        revert Ha. unfold reconcileTx.
        destruct (holder control ev) as [p|]; [destruct (decide _)|]; done.
      + apply list_elem_of_omap in Htx as (part & _ & Hc). by eapply Hcopy. }
  unfold onEventCreate. rewrite decide_True; [done|]. by rewrite Hacc'.
Qed.

(** *** Copies per participant, and copies that no longer resolve *)

Lemma count_omap_ext {A B} (p : B → bool) (q : A → bool) (f : A → option B)
    (l : list A) :
  (∀ y, y ∈ l → match f y with Some t => p t = q y | None => q y = false end) →
  count p (omap f l) = count q l.
Proof.
  induction l as [|x l IH]; intros Hall; [done|]. simpl.
  pose proof (Hall x (list_elem_of_here x l)) as Hx.
  rewrite <- IH by (intros y Hy; apply Hall; by right).
  destruct (f x) as [t|]; simpl; by rewrite Hx.
Qed.

(** X6. [onEventCreate] walks the participants array as it is: a participant
    whose account resolves, is not the creator's and has a calendar gets one
    copy for each time the participant is listed, so a participant listed
    twice gets two copies. *)
Theorem onEventCreate_counts_occurrences (ctx : TxIn) control part acc calendar :
  ev_access (createDoc2Doc ctx) = "owner" →
  NoDup (acc_id <$> store_accounts control) →
  accountOf control part = Some acc →
  acc_id acc ≠ creatorOf (createDoc2Doc ctx) →
  getCalendar (visibleCalendars control) (acc_id acc) = Some calendar →
  count (createsFor (acc_id acc)) (onEventCreate ctx control)
  = occurrences part (ev_participants (createDoc2Doc ctx)).
Proof.
  intros Hown Hnd Hacc Hne Hcal. rewrite onEventCreate_omap by done.
  apply count_omap_ext. intros part' _.
  destruct (copyFor control (createDoc2Doc ctx) part') as [tx|] eqn:Hc.
  - apply copyFor_Some in Hc as (acc' & cal' & Hacc' & _ & _ & ->).
    unfold createsFor, readerCopyTx. simpl.
    destruct (decide (part' = part)) as [->|Hp].
    + assert (acc' = acc) as -> by congruence.
      by rewrite !bool_decide_eq_true_2.
    + rewrite !bool_decide_eq_false_2; [done..|].
      intros [= Hsame]. apply Hp.
      apply accountOf_Some in Hacc as [Hin1 <-].
      apply accountOf_Some in Hacc' as [Hin2 <-].
      f_equal. by apply (key_unique_inj acc_id (store_accounts control)).
  - apply bool_decide_eq_false_2. intros ->.
    assert (copyFor control (createDoc2Doc ctx) part
            = Some (readerCopyTx (createDoc2Doc ctx) calendar (acc_id acc)))
      as Hsome by (apply copyFor_Some; by exists acc, calendar).
    congruence.
Qed.

End FurtherProperties.

(** X7. A sibling copy that no longer resolves to a holder is removed by any
    propagated update: this is so when every calendar of the store with the
    copy's calendar id is hidden (or there is none), and when the model holds
    no account with the id of the copy's creator. *)
Theorem unresolved_copy_is_removed ctx control event ev :
  changesOther ctx →
  storedEvent control (upd_objectId ctx) = Some event →
  ev_access event = "owner" →
  ev ∈ store_events control →
  ev_eventId ev = ev_eventId event →
  ev_id ev ≠ ev_id event →
  (∀ c, c ∈ store_calendars control → cal_id c = ev_calendar ev →
        cal_hidden c = true)
  ∨ (∀ a, a ∈ modelDb control → acc_id a ≠ creatorOf ev) →
  holder control ev = None ∧ removeTx ev ∈ onEventUpdate ctx control.
Proof.
  intros Hops Hev Hacc Hin Heid Hid Hwhy.
  assert (holder control ev = None) as Hnone.
  { unfold holder, getEventPerson. destruct Hwhy as [Hhidden|Hnoacc].
    - rewrite (proj2 (Array_find_None _ _)); [done|].
      intros c [Hvis Hc]%list_elem_of_filter Hid'.
      rewrite (Hhidden c Hc Hid') in Hvis. done.
    - destruct (Array_find _ _); [|done].
      assert (findAll (modelDb control)
                (λ a, acc_id a = ev_createdBy ev ?? ev_modifiedBy ev) None
              = []) as ->; [|done].
      apply head_None.
      change (Array_find (λ a, acc_id a = creatorOf ev) (modelDb control)
              = None).
      apply Array_find_None. intros a Ha. by apply Hnoacc. }
  split; [done|].
  rewrite (onEventUpdate_eq ctx control event Hops Hev Hacc).
  apply elem_of_app. left. apply list_elem_of_fmap. exists ev.
  split; [|by apply siblings_elem].
  unfold reconcileTx. by rewrite Hnone.
Qed.

(** X8. Calendar selection and holder resolution agree: an event kept in the
    calendar that [getCalendar] selects for an account, and created by that
    account, resolves to the person of the account. *)
Theorem selected_calendar_resolves control ev acc :
  getCalendar (visibleCalendars control) (acc_id acc) = Some (ev_calendar ev) →
  creatorOf ev = acc_id acc →
  Array_find (λ a, acc_id a = acc_id acc) (modelDb control) = Some acc →
  holder control ev = Some (acc_person acc).
Proof.
  intros Hcal Hcreator Hacc. unfold holder, getEventPerson.
  apply getCalendar_Some_owned in Hcal as (c & Hc & _ & Hid).
  destruct (Array_find (λ c, cal_id c = ev_calendar ev)
              (visibleCalendars control)) as [c'|] eqn:Hfind.
  - unfold creatorOf in Hcreator. rewrite Hcreator.
    unfold findAll. unfold Array_find in Hacc. rewrite <- head_lookup.
    by rewrite Hacc.
  - exfalso. by apply (proj1 (Array_find_None _ _) Hfind c).
Qed.

(** *** The dispatcher, and reminders *)

Section DispatchProperties.

Context {TxIn : Type}.
Context `{!CreateDoc2Doc TxIn Event}.
Variable extractTx : TxIn → TxIn.
Variable tx_class : TxIn → Ref.
Variable as_TxUpdateDoc : TxIn → TxUpdateDoc.
Variable as_TxRemoveDoc : TxIn → TxRemoveDoc.
Variable core_class_TxCreateDoc core_class_TxUpdateDoc
  core_class_TxRemoveDoc : Ref.
Variable getHTMLPresenter : Ref → Hierarchy → option PresenterMixin.
Variable getTextPresenter : Ref → Hierarchy → option PresenterMixin.
Variable getResource : string → Doc → TriggerControl → string.

(** X9. Only the owner's changes propagate: when [OnEvent] emits anything,
    the transaction is a creation of an event with access [owner], or an
    update that changes a field other than [visibility] of a stored event
    with access [owner], or the removal of an event that the removed-document
    cache holds with access [owner]. *)
Theorem OnEvent_only_for_owner (tx : TxIn) control :
  OnEvent extractTx tx_class as_TxUpdateDoc as_TxRemoveDoc
    core_class_TxCreateDoc core_class_TxUpdateDoc core_class_TxRemoveDoc
    tx control ≠ [] →
  let ctx := extractTx tx in
  (tx_class ctx = core_class_TxCreateDoc
   ∧ ev_access (createDoc2Doc ctx) = "owner")
  ∨ (tx_class ctx = core_class_TxUpdateDoc
     ∧ changesOther (as_TxUpdateDoc ctx)
     ∧ ∃ event,
         storedEvent control (upd_objectId (as_TxUpdateDoc ctx)) = Some event
         ∧ ev_access event = "owner")
  ∨ (tx_class ctx = core_class_TxRemoveDoc
     ∧ ∃ removed,
         removedMap control !! rem_objectId (as_TxRemoveDoc ctx) = Some removed
         ∧ ev_access removed = "owner").
Proof.
  intros Hout ctx. unfold OnEvent in Hout. fold ctx in Hout.
  destruct (decide (tx_class ctx = core_class_TxCreateDoc)) as [Hc|_].
  { left. split; [done|].
    destruct (decide (ev_access (createDoc2Doc ctx) = "owner")); [done|].
    exfalso. apply Hout. unfold onEventCreate. by rewrite decide_True. }
  destruct (decide (tx_class ctx = core_class_TxUpdateDoc)) as [Hu|_].
  { right. left. split; [done|].
    destruct (onEventUpdate_cases (as_TxUpdateDoc ctx) control)
      as [Hnil|(event & Hops & Hev & Hacc & _)]; [done|eauto]. }
  destruct (decide (tx_class ctx = core_class_TxRemoveDoc)) as [Hr|_]; [|done].
  right. right. split; [done|].
  unfold onRemoveEvent in Hout.
  destruct (removedMap control !! rem_objectId (as_TxRemoveDoc ctx))
    as [removed|]; [|done].
  exists removed. split; [done|].
  destruct (decide (ev_access removed = "owner")); [done|].
  exfalso. apply Hout. by rewrite decide_True.
Qed.

(** X10. A reminder found for a record is presented as that record: when
    the store keeps the record under an id no other record has, and the
    event's attached class covers the record's class, both presenters render
    the record itself (or return [undefined] when its class has no
    presenter). *)
Theorem reminders_present_their_record (doc : Doc) control event :
  doc ∈ store_docs control →
  NoDup (doc_id <$> store_docs control) →
  event ∈ FindReminders doc (hierarchy control) (store_events control) →
  isDerived (hierarchy control) (doc_class doc) (ev_attachedToClass event)
  = true →
  ReminderHTMLPresenter getHTMLPresenter getResource event control
  = match getHTMLPresenter (doc_class doc) (hierarchy control) with
    | None => None
    | Some p => Some (getResource (presenter p) doc control)
    end
  ∧ ReminderTextPresenter getTextPresenter getResource event control
    = match getTextPresenter (doc_class doc) (hierarchy control) with
      | None => None
      | Some p => Some (getResource (presenter p) doc control)
      end.
Proof.
  intros Hdoc Hnd Hev Hclass.
  unfold FindReminders, findAll in Hev.
  apply list_elem_of_filter in Hev as [Hatt _].
  apply list_elem_of_split in Hdoc as (l1 & l2 & Hdocs).
  assert (findAll (store_docs control)
            (λ d, isDerived (hierarchy control) (doc_class d)
                    (ev_attachedToClass event) = true
                  ∧ doc_id d = ev_attachedTo event) (Some 1) !! 0
          = Some doc) as Hfound.
  { apply (findAll_first_Some _ _ l1 l2); [done|done|].
    intros d Hd [_ Hid]. rewrite Hdocs, fmap_app, fmap_cons in Hnd.
    apply NoDup_app in Hnd as (_ & Hdisj & _).
    apply (Hdisj (doc_id d)); [by apply list_elem_of_fmap_2|].
    rewrite Hid, Hatt. left. }
  unfold ReminderHTMLPresenter, ReminderTextPresenter. by rewrite Hfound.
Qed.

End DispatchProperties.

(** *** The further properties on the example store *)

(** An event that lists Cy twice. *)
Definition ex_twice : Event :=
  {| ev_id := "e5"; ev_class := "calendar:class:Event";
     ev_space := "calendar:space:Calendar";
     ev_attachedTo := "task-1"; ev_attachedToClass := "tracker:class:Issue";
     ev_collection := "events";
     ev_modifiedBy := "acc-owner"; ev_createdBy := Some "acc-owner";
     ev_eventId := "G"; ev_calendar := "cal-owner"; ev_access := "owner";
     ev_participants := ["p-cy"; "p-owner"; "p-cy"]; ev_other := ∅ |}.

(** The example store with a copy [e3] that Eve keeps in her hidden
    calendar. *)
Definition ex_e3 : Event := ex_event "e3" "cal-eve" "acc-eve" "reader".

Definition ex_control_eve : TriggerControl :=
  {| store_events := [ex_e0; ex_e3];
     store_calendars := store_calendars ex_control;
     store_accounts := ex_accounts;
     store_docs := store_docs ex_control;
     modelDb := ex_accounts;
     removedMap := ∅;
     hierarchy := hierarchy ex_control |}.

Lemma ex_accounts_ids : NoDup (acc_id <$> store_accounts ex_control).
Proof. apply (bool_decide_unpack _). vm_compute. exact I. Qed.

Lemma onEventUpdate_spares_edited_witness :
  updates "e0" (removeTx ex_e2) = false ∧ removes "e0" (removeTx ex_e2) = false.
Proof.
  apply (onEventUpdate_spares_edited ex_retitle ex_control (removeTx ex_e2)).
  vm_compute. right. left.
Defined.

Lemma creator_gets_no_copy_witness :
  count (createsFor "acc-owner")
    (@onEventCreate _ ex_createDoc2Doc ex_e0 ex_control) = 0
  ∧ count (createsFor "acc-owner") (onEventUpdate ex_retitle ex_control) = 0.
Proof.
  destruct (@creator_gets_no_copy _ ex_createDoc2Doc) as [Hcreate Hupdate].
  split.
  - apply (Hcreate ex_e0 ex_control).
  - apply (Hupdate ex_retitle ex_control ex_e0). reflexivity.
Defined.

Lemma onEventUpdate_no_second_copy_witness :
  count (createsFor "acc-ann") (onEventUpdate ex_retitle ex_control) = 0.
Proof.
  apply (onEventUpdate_no_second_copy ex_retitle ex_control ex_e0 ex_e1
           "p-ann" (ex_account "acc-ann" "p-ann")).
  - reflexivity.
  - exact ex_accounts_ids.
  - vm_compute. right. left.
  - reflexivity.
  - vm_compute. discriminate.
  - reflexivity.
  - vm_compute. right. left.
  - reflexivity.
Defined.

Lemma copies_land_in_own_visible_calendar_witness :
  ∃ c, c ∈ store_calendars ex_control
       ∧ cal_hidden c = false
       ∧ ownedBy "acc-cy" c
       ∧ createdCalendar (readerCopyTx ex_e0 "cal-cy" "acc-cy")
         = Some (cal_id c).
Proof.
  apply (@copies_land_in_own_visible_calendar _ ex_createDoc2Doc ex_e0
           ex_retitle ex_control).
  - left. vm_compute. right. left.
  - reflexivity.
Defined.

Lemma created_copies_do_not_retrigger_witness :
  @onEventCreate _ ex_createDoc2Doc ex_e1 ex_control_eve = [].
Proof.
  apply (@created_copies_do_not_retrigger _ ex_createDoc2Doc ex_e0 ex_retitle
           ex_control (readerCopyTx ex_e0 "cal-cy" "acc-cy") "reader").
  - right. vm_compute. do 2 right. left.
  - reflexivity.
  - reflexivity.
Defined.

Lemma onEventCreate_counts_occurrences_witness :
  count (createsFor "acc-cy")
    (@onEventCreate _ ex_createDoc2Doc ex_twice ex_control) = 2.
Proof.
  apply (@onEventCreate_counts_occurrences _ ex_createDoc2Doc ex_twice
           ex_control "p-cy" (ex_account "acc-cy" "p-cy") "cal-cy").
  - reflexivity.
  - exact ex_accounts_ids.
  - reflexivity.
  - vm_compute. discriminate.
  - reflexivity.
Defined.

Lemma unresolved_copy_is_removed_witness :
  holder ex_control_eve ex_e3 = None
  ∧ removeTx ex_e3 ∈ onEventUpdate ex_retitle ex_control_eve.
Proof.
  apply (unresolved_copy_is_removed ex_retitle ex_control_eve ex_e0 ex_e3).
  - exact ex_retitle_changesOther.
  - reflexivity.
  - reflexivity.
  - vm_compute. right. left.
  - reflexivity.
  - vm_compute. discriminate.
  - left. intros c Hc Hid. simpl in Hc.
    repeat (apply elem_of_cons in Hc as [->|Hc]; [done|]).
    by apply elem_of_nil in Hc.
Defined.

Lemma selected_calendar_resolves_witness :
  holder ex_control ex_e1 = Some "p-ann".
Proof.
  apply (selected_calendar_resolves ex_control ex_e1
           (ex_account "acc-ann" "p-ann")); reflexivity.
Defined.

Lemma OnEvent_only_for_owner_witness :
  ("create" = "create" ∧ ev_access ex_e0 = "owner")
  ∨ ("create" = "update"
     ∧ changesOther ex_retitle
     ∧ ∃ event, storedEvent ex_control (upd_objectId ex_retitle) = Some event
                ∧ ev_access event = "owner")
  ∨ ("create" = "remove"
     ∧ ∃ removed,
         removedMap ex_control !! rem_objectId {| rem_objectId := "e0" |}
         = Some removed
         ∧ ev_access removed = "owner").
Proof.
  apply (@OnEvent_only_for_owner _ ex_createDoc2Doc (λ tx, tx)
           (λ _, "create") (λ _, ex_retitle)
           (λ _, {| rem_objectId := "e0" |})
           "create" "update" "remove" ex_e0 ex_control).
  vm_compute. discriminate.
Defined.

Lemma reminders_present_their_record_witness :
  ReminderHTMLPresenter ex_getHTMLPresenter ex_getResource ex_e1 ex_control
  = Some "<a>task-1</a>"
  ∧ ReminderTextPresenter ex_getTextPresenter ex_getResource ex_e1 ex_control
    = None.
Proof.
  apply (reminders_present_their_record ex_getHTMLPresenter ex_getTextPresenter
           ex_getResource
           {| doc_id := "task-1"; doc_class := "tracker:class:Issue" |}
           ex_control ex_e1).
  - vm_compute. left.
  - apply (bool_decide_unpack _). vm_compute. exact I.
  - vm_compute. right. left.
  - reflexivity.
Defined.

End CalendarResources.

(** ** The content-restore tool *)

Module Markup.

(** *** Documents, blobs and the database *)

Abbreviation BlobId := string.

Record Doc := mkDoc {
  doc_id : Ref;
  doc_class : Ref
}.

(** The create transaction of a document, as the [tx] collection keeps it;
    an attribute that holds collaborative content is a string. *)
Record TxCreateDoc := mkTxCreateDoc {
  tx_class : Ref;
  tx_objectId : Ref;
  tx_objectClass : Ref;
  tx_attributes : option (gmap string string)
}.

Record CollabId := mkCollabId {
  objectClass : Ref;
  objectId : Ref;
  objectAttr : string
}.

(** The collections of the database the tool reads. *)
Record Db := mkDb {
  DOMAIN_DOCUMENT : list Doc;
  DOMAIN_DOCUMENTS : list Doc;
  DOMAIN_TX : list TxCreateDoc
}.

Record RestoreWikiContentParams := mkParams {
  dryRun : bool
}.

(** *** Effects *)

(** An awaited call returns or throws. *)
Inductive Outcome (A : Type) :=
| Ok (a : A)
| Throw (err : string).
Arguments Ok {A} a.
Arguments Throw {A} err.

Inductive LogArg :=
| LStr (s : string)
| LNum (n : nat).

(** The calls the tool makes on its collaborators, [Y] being the type of an
    in-memory collaborative document. *)
Inductive Call (Y : Type) :=
| call_stat (id : BlobId)
| call_read (id : BlobId)
| call_put (id : BlobId) (data : list Byte.byte) (contentType : string)
    (size : nat)
| call_loadCollabYdoc (id : CollabId)
| call_saveCollabYdoc (id : CollabId) (ydoc : Y)
| console_log (args : list LogArg)
| console_error (args : list LogArg)
| iterator_close.
Arguments call_stat {Y} id.
Arguments call_read {Y} id.
Arguments call_put {Y} id data contentType size.
Arguments call_loadCollabYdoc {Y} id.
Arguments call_saveCollabYdoc {Y} id ydoc.
Arguments console_log {Y} args.
Arguments console_error {Y} args.
Arguments iterator_close {Y}.

(** The calls that write: [put] on the storage adapter and [saveCollabYdoc]
    on the collaborative-document store. *)
Definition is_write {Y} (c : Call Y) : bool :=
  match c with
  | call_put _ _ _ _ | call_saveCollabYdoc _ _ => true
  | _ => false
  end.

(** The storage adapter, the collaboration library and the identifiers of the
    platform are used through their interfaces: [S] is the state of the
    storage, which only [put] and [saveCollabYdoc] can change. *)
Class StorageAdapter (S : Type) := {
  stat : S → BlobId → Outcome (option nat);
  read : S → BlobId → Outcome (list (list Byte.byte));
  put : S → BlobId → list Byte.byte → string → nat → Outcome unit * S
}.

Class Collaboration (S Y : Type) := {
  loadCollabYdoc : S → CollabId → Outcome (option Y);
  saveCollabYdoc : S → CollabId → Y → Outcome unit * S;
  share_has : Y → string → bool;
  yDocCopyXmlField : Y → string → string → Y
}.

Class Platform := {
  makeCollabYdocId : CollabId → BlobId;
  makeDocCollabId : Doc → string → CollabId;
  core_class_TxCreateDoc : Ref;
  document_class_Document : Ref;
  documents_class_ControlledDocument : Ref;
  documents_class_ControlledDocumentSnapshot : Ref
}.

(** What a run can change: the storage, the trace of calls, and the two
    counters of the running function. *)
Record State (S Y : Type) := mkState {
  storage : S;
  calls : list (Call Y);
  processedCnt : nat;
  restoredCnt : nat
}.
Arguments mkState {S Y} storage calls processedCnt restoredCnt.
Arguments storage {S Y} s.
Arguments calls {S Y} s.
Arguments processedCnt {S Y} s.
Arguments restoredCnt {S Y} s.

(** The members of [Object.prototype].  A plain object answers to these
    names with a function or an object (never with [undefined], a string or
    an array) also when it has no such property of its own. *)
Definition Object_prototype : list string :=
  [ "constructor"; "__defineGetter__"; "__defineSetter__"; "hasOwnProperty";
    "__lookupGetter__"; "__lookupSetter__"; "isPrototypeOf";
    "propertyIsEnumerable"; "toString"; "valueOf"; "__proto__";
    "toLocaleString" ].

(** [value.includes(':')] and [value.split(':')[0]] *)
Fixpoint includes_colon (value : string) : bool :=
  match value with
  | "" => false
  | String c rest => if Ascii.eqb c ":"%char then true else includes_colon rest
  end.

Fixpoint before_colon (value : string) : string :=
  match value with
  | "" => ""
  | String c rest => if Ascii.eqb c ":"%char then "" else String c (before_colon rest)
  end.

(** *** A small workspace to run the tool on

    Blobs are kept in a map from blob id to chunks; a collaborative document
    is the list of its shared fields. *)

Definition ex_platform : Platform :=
  {| makeCollabYdocId := λ c, objectId c +:+ "%" +:+ objectAttr c;
     makeDocCollabId := λ doc attr,
       {| objectClass := doc_class doc; objectId := doc_id doc;
          objectAttr := attr |};
     core_class_TxCreateDoc := "core:class:TxCreateDoc";
     document_class_Document := "document:class:Document";
     documents_class_ControlledDocument :=
       "documents:class:ControlledDocument";
     documents_class_ControlledDocumentSnapshot :=
       "documents:class:ControlledDocumentSnapshot" |}.

Definition ex_adapter : StorageAdapter (gmap BlobId (list (list Byte.byte))) :=
  {| stat := λ s id, Ok (length <$> s !! id);
     read := λ s id,
       match s !! id with
       | Some chunks => Ok chunks
       | None => Throw "NoSuchKey"
       end;
     put := λ s id data contentType size, (Ok tt, <[id := [data]]> s) |}.

Definition ex_collab
    : Collaboration (gmap BlobId (list (list Byte.byte))) (list string) :=
  {| loadCollabYdoc := λ s c,
       match s !! @makeCollabYdocId ex_platform c with
       | Some _ => Ok (Some ["description"])
       | None => Ok None
       end;
     saveCollabYdoc := λ s c y,
       (Ok tt, <[@makeCollabYdocId ex_platform c := []]> s);
     share_has := λ y k, bool_decide (k ∈ y);
     yDocCopyXmlField := λ y from to, to :: y |}.

Definition ex_doc : Doc :=
  {| doc_id := "doc-1"; doc_class := "documents:class:ControlledDocument" |}.

Definition ex_db : Db :=
  {| DOMAIN_DOCUMENT :=
       [ {| doc_id := "wiki-1"; doc_class := "document:class:Document" |} ];
     DOMAIN_DOCUMENTS := [ex_doc];
     DOMAIN_TX :=
       [ {| tx_class := "core:class:TxCreateDoc"; tx_objectId := "doc-1";
            tx_objectClass := "documents:class:ControlledDocument";
            tx_attributes :=
              Some {[ "content" := "65b7f82f4d422b89d4cbdd6f:HEAD:0" ]} |} ] |}.

Definition ex_state
    : State (gmap BlobId (list (list Byte.byte))) (list string) :=
  {| storage :=
       {[ "65b7f82f4d422b89d4cbdd6f" := [[Byte.x01; Byte.x02]];
          "wiki-1%description" := [[Byte.x03]] ]};
     calls := [];
     processedCnt := 0;
     restoredCnt := 0 |}.

Section Tool.

Context {S Y : Type}.
Context `{!StorageAdapter S, !Collaboration S Y, !Platform}.

Definition M (A : Type) : Type := State S Y → Outcome A * State S Y.

#[global] Instance M_ret : MRet M := λ A a st, (Ok a, st).

#[global] Instance M_bind : MBind M := λ A B f m st,
  match m st with
  | (Ok a, st') => f a st'
  | (Throw err, st') => (Throw err, st')
  end.

Definition throw {A} (err : string) : M A := λ st, (Throw err, st).

(** [try { body } catch (err) { handler }] *)
Definition try_catch {A} (body : M A) (handler : string → M A) : M A :=
  λ st,
    match body st with
    | (Ok a, st') => (Ok a, st')
    | (Throw err, st') => handler err st'
    end.

(** [try { body } finally { fin }] *)
Definition try_finally {A} (body : M A) (fin : M unit) : M A :=
  λ st,
    match body st with
    | (r, st') =>
      match fin st' with
      | (Ok _, st'') => (r, st'')
      | (Throw err, st'') => (Throw err, st'')
      end
    end.

Definition trace (c : Call Y) : M unit :=
  λ st, (Ok tt, mkState (storage st) (calls st ++ [c])
                  (processedCnt st) (restoredCnt st)).

(** An awaited read of the storage. *)
Definition await_read {A} (c : Call Y) (op : S → Outcome A) : M A :=
  λ st, (op (storage st),
         mkState (storage st) (calls st ++ [c])
           (processedCnt st) (restoredCnt st)).

(** An awaited write to the storage. *)
Definition await_write (c : Call Y) (op : S → Outcome unit * S) : M unit :=
  λ st,
    let '(r, s') := op (storage st) in
    (r, mkState s' (calls st ++ [c]) (processedCnt st) (restoredCnt st)).

Definition get_counters : M (nat * nat) :=
  λ st, (Ok (processedCnt st, restoredCnt st), st).

Definition set_counters (p r : nat) : M unit :=
  λ st, (Ok tt, mkState (storage st) (calls st) p r).

Definition printStats : M unit :=
  '(p, r) ← get_counters;
  trace (console_log [LStr "...processed"; LNum p; LStr "restored"; LNum r]).

(** *** [restoreWikiContentMongo] *)

(** The [while (true)] loop, one round per document the cursor yields; the
    cursor is exhausted when [iterator.next()] gives [null]. *)
Fixpoint restoreWikiContent_loop (params : RestoreWikiContentParams)
    (iterator : list Doc) : M unit :=
  match iterator with
  | [] => mret tt
  | doc :: iterator =>
    '(p, r) ← get_counters;
    set_counters (p + 1) r;;
    (if decide ((p + 1) mod 100 = 0) then printStats else mret tt);;
    let correctCollabId :=
      {| objectClass := doc_class doc; objectId := doc_id doc;
         objectAttr := "content" |} in
    let wrongCollabId :=
      {| objectClass := doc_class doc; objectId := doc_id doc;
         objectAttr := "description" |} in
    (* [stat] is called without [await]: the promise it returns is never
       [undefined], so the round goes on whatever the storage holds *)
    trace (call_stat (makeCollabYdocId wrongCollabId));;
    ydoc1 ← await_read (call_loadCollabYdoc correctCollabId)
              (λ s, loadCollabYdoc s correctCollabId);
    ydoc2 ← await_read (call_loadCollabYdoc wrongCollabId)
              (λ s, loadCollabYdoc s wrongCollabId);
    if match ydoc1 with
       | Some ydoc1 => share_has ydoc1 "content"
       | None => false
       end
    then restoreWikiContent_loop params iterator
    else
      match ydoc2 with
      | None => restoreWikiContent_loop params iterator
      | Some ydoc2 =>
        try_catch
          (trace (console_log
                    [LStr "restoring content for"; LStr (doc_id doc)]);;
           (if negb (dryRun params) then
              let ydoc2 :=
                if share_has ydoc2 "description"
                   && negb (share_has ydoc2 "content")
                then yDocCopyXmlField ydoc2 "description" "content"
                else ydoc2 in
              await_write (call_saveCollabYdoc correctCollabId ydoc2)
                (λ s, saveCollabYdoc s correctCollabId ydoc2)
            else mret tt);;
           '(p, r) ← get_counters;
           set_counters p (r + 1))
          (λ err,
             trace (console_error
                      [LStr "failed to restore content for";
                       LStr (doc_id doc); LStr err]));;
        restoreWikiContent_loop params iterator
      end
  end.

Definition restoreWikiContentMongo (db : Db)
    (params : RestoreWikiContentParams) : M unit :=
  let iterator :=
    filter (λ d, doc_class d = document_class_Document)
      (DOMAIN_DOCUMENT db) in
  set_counters 0 0;;
  try_finally (restoreWikiContent_loop params iterator)
    (printStats;; trace iterator_close).

(** *** [restoreControlledDocContentForDoc] *)

Definition restoreControlledDocContentForDoc (db : Db)
    (params : RestoreWikiContentParams) (doc : Doc) (attribute : string)
    : M bool :=
  let tx :=
    Array_find (λ t, tx_class t = core_class_TxCreateDoc
                     ∧ tx_objectId t = doc_id doc
                     ∧ tx_objectClass t = doc_class doc) (DOMAIN_TX db) in
  let attribures : gmap string string :=
    match tx with
    | Some tx => tx_attributes tx ?? ∅
    | None => ∅
    end in
  let value := attribures !! attribute in
  match value with
  | Some value =>
    if includes_colon value then
      let currentYdocId := before_colon value in
      let ydocId := makeCollabYdocId (makeDocCollabId doc attribute) in
      stat_ ← await_read (call_stat ydocId) (λ s, stat s ydocId);
      match stat_ with
      | Some _ =>
        trace (console_log
                 [LStr "content already restored"; LStr (doc_class doc);
                  LStr (doc_id doc); LStr ydocId]);;
        mret false
      | None =>
        trace (console_log
                 [LStr "restoring content"; LStr (doc_id doc);
                  LStr currentYdocId; LStr "-->"; LStr ydocId]);;
        (* [Some b]: the block returned [b]; [None]: it ran to its end *)
        returned ←
          (if negb (dryRun params) then
             try_catch
               (stat_ ← await_read (call_stat currentYdocId)
                          (λ s, stat s currentYdocId);
                match stat_ with
                | None =>
                  trace (console_log
                           [LStr "no content to restore";
                            LStr (doc_class doc); LStr (doc_id doc);
                            LStr ydocId]);;
                  mret (Some false)
                | Some _ =>
                  buffer ← await_read (call_read currentYdocId)
                             (λ s, read s currentYdocId);
                  await_write
                    (call_put ydocId (concat buffer) "application/ydoc"
                       (length buffer))
                    (λ s, put s ydocId (concat buffer) "application/ydoc"
                            (length buffer));;
                  mret None
                end)
               (λ err,
                  trace (console_error
                           [LStr "failed to restore content for";
                            LStr (doc_class doc); LStr (doc_id doc);
                            LStr err]);;
                  mret (Some false))
           else mret None);
        match returned with
        | Some b => mret b
        | None => mret true
        end
      end
    else
      trace (console_log
               [LStr "no content to restore"; LStr (doc_class doc);
                LStr (doc_id doc)]);;
      mret false
  | None =>
    if decide (attribute ∈ Object_prototype) then
      (* the attributes have no such property of their own but inherit the
         name: [value] is a function or an object, it is not [null], and
         [value.includes] is not a function *)
      throw "TypeError: value.includes is not a function"
    else
      trace (console_log
               [LStr "no content to restore"; LStr (doc_class doc);
                LStr (doc_id doc)]);;
      mret false
  end.

(** *** [restoreControlledDocContentMongo] *)

Fixpoint restoreControlledDocContent_loop (db : Db)
    (params : RestoreWikiContentParams) (iterator : list Doc) : M unit :=
  match iterator with
  | [] => mret tt
  | doc :: iterator =>
    restored ← restoreControlledDocContentForDoc db params doc "content";
    (if restored : bool then
       '(p, r) ← get_counters;
       set_counters p (r + 1)
     else mret tt);;
    '(p, r) ← get_counters;
    set_counters (p + 1) r;;
    (if decide ((p + 1) mod 100 = 0) then printStats else mret tt);;
    restoreControlledDocContent_loop db params iterator
  end.

Definition restoreControlledDocContentMongo (db : Db)
    (params : RestoreWikiContentParams) : M unit :=
  let iterator :=
    filter (λ d, doc_class d ∈ [documents_class_ControlledDocument;
                                documents_class_ControlledDocumentSnapshot])
      (DOMAIN_DOCUMENTS db) in
  set_counters 0 0;;
  try_finally (restoreControlledDocContent_loop db params iterator)
    (printStats;; trace iterator_close).

(** *** Runs that write nothing *)

(** A computation writes nothing when, from any state, it leaves the storage
    as it was and adds no writing call to the trace. *)
Definition readonly {A} (m : M A) : Prop :=
  ∀ st,
    storage (m st).2 = storage st
    ∧ ∃ new, calls (m st).2 = calls st ++ new
             ∧ Forall (λ c, is_write c = false) new.

(** The first create transaction of [doc] in the [tx] collection. *)
Definition createTxOf (db : Db) (doc : Doc) : option TxCreateDoc :=
  Array_find (λ t, tx_class t = core_class_TxCreateDoc
                   ∧ tx_objectId t = doc_id doc
                   ∧ tx_objectClass t = doc_class doc) (DOMAIN_TX db).

(** [doc] still refers to its content in the old format, and the storage
    [s] holds nothing yet under the new id. *)
Definition restorable (db : Db) (s : S) (doc : Doc) (attribute : string)
    : Prop :=
  ∃ tx attributes value,
    createTxOf db doc = Some tx
    ∧ tx_attributes tx = Some attributes
    ∧ attributes !! attribute = Some value
    ∧ includes_colon value = true
    ∧ stat s (makeCollabYdocId (makeDocCollabId doc attribute)) = Ok None.

(** The documents [restoreControlledDocContentMongo] iterates over. *)
Definition controlledDocs (db : Db) : list Doc :=
  filter (λ d, doc_class d ∈ [documents_class_ControlledDocument;
                              documents_class_ControlledDocumentSnapshot])
    (DOMAIN_DOCUMENTS db).

#[global] Instance restorable_dec db s doc attribute :
  Decision (restorable db s doc attribute).
Proof.
  unfold restorable.
  destruct (createTxOf db doc) as [tx|];
    [|right; by intros (? & ? & ? & ? & _)].
  destruct (tx_attributes tx) as [attributes|] eqn:Hattrs;
    [|right; intros (? & ? & ? & [= <-] & ? & _); congruence].
  destruct (attributes !! attribute) as [value|] eqn:Hvalue;
    [|right; intros (? & ? & ? & [= <-] & ? & ? & _); congruence].
  destruct (includes_colon value) eqn:Hinc;
    [|right; intros (? & ? & ? & [= <-] & ? & ? & ? & _); congruence].
  destruct (stat s (makeCollabYdocId (makeDocCollabId doc attribute)))
    as [[n|]|err] eqn:Hstat.
  - right. intros (? & ? & ? & [= <-] & ? & ? & ? & ?). congruence.
  - left. by exists tx, attributes, value.
  - right. intros (? & ? & ? & [= <-] & ? & ? & ? & ?). congruence.
Defined.

Lemma readonly_ret {A} (a : A) : readonly (mret a).
Proof.
  intros st. split; [done|]. exists []. by rewrite app_nil_r.
Qed.

Lemma readonly_bind {A B} (m : M A) (f : A → M B) :
  readonly m → (∀ a, readonly (f a)) → readonly (m ≫= f).
Proof.
  intros Hm Hf st. unfold mbind, M_bind.
  destruct (Hm st) as (Hs & new & Hc & Hnew).
  destruct (m st) as [[a|err] st1]; simpl in *.
  - destruct (Hf a st1) as (Hs' & new' & Hc' & Hnew').
    split; [congruence|]. exists (new ++ new').
    rewrite Hc', Hc, app_assoc. split; [done|]. by apply Forall_app.
  - split; [done|]. by exists new.
Qed.

Lemma readonly_try_catch {A} (body : M A) (handler : string → M A) :
  readonly body → (∀ err, readonly (handler err)) →
  readonly (try_catch body handler).
Proof.
  intros Hm Hf st. unfold try_catch.
  destruct (Hm st) as (Hs & new & Hc & Hnew).
  destruct (body st) as [[a|err] st1]; simpl in *.
  - split; [done|]. by exists new.
  - destruct (Hf err st1) as (Hs' & new' & Hc' & Hnew').
    split; [congruence|]. exists (new ++ new').
    rewrite Hc', Hc, app_assoc. split; [done|]. by apply Forall_app.
Qed.

Lemma readonly_try_finally {A} (body : M A) (fin : M unit) :
  readonly body → readonly fin → readonly (try_finally body fin).
Proof.
  intros Hm Hf st. unfold try_finally.
  destruct (Hm st) as (Hs & new & Hc & Hnew).
  destruct (body st) as [r st1]; simpl in *.
  destruct (Hf st1) as (Hs' & new' & Hc' & Hnew').
  assert (storage (fin st1).2 = storage st
          ∧ ∃ new0, calls (fin st1).2 = calls st ++ new0
                    ∧ Forall (λ c, is_write c = false) new0) as Hfin.
  { split; [congruence|]. exists (new ++ new').
    rewrite Hc', Hc, app_assoc. split; [done|]. by apply Forall_app. }
  by destruct (fin st1) as [[[]|err] st2].
Qed.

Lemma readonly_trace (c : Call Y) : is_write c = false → readonly (trace c).
Proof.
  intros Hc st. split; [done|]. exists [c]. split; [done|].
  by apply Forall_singleton.
Qed.

Lemma readonly_await_read {A} (c : Call Y) (op : S → Outcome A) :
  is_write c = false → readonly (await_read c op).
Proof.
  intros Hc st. split; [done|]. exists [c]. split; [done|].
  by apply Forall_singleton.
Qed.

Lemma readonly_get_counters : readonly get_counters.
Proof. intros st. split; [done|]. exists []. by rewrite app_nil_r. Qed.

Lemma readonly_set_counters p r : readonly (set_counters p r).
Proof. intros st. split; [done|]. exists []. simpl. by rewrite app_nil_r. Qed.

Lemma readonly_printStats : readonly printStats.
Proof.
  apply readonly_bind; [apply readonly_get_counters|].
  intros [p r]. by apply readonly_trace.
Qed.

Ltac readonly_step :=
  first
    [ apply readonly_ret
    | apply readonly_get_counters
    | apply readonly_set_counters
    | apply readonly_printStats
    | apply readonly_trace; reflexivity
    | apply readonly_await_read; reflexivity
    | apply readonly_bind; [|intros ?]
    | apply readonly_try_catch; [|intros ?]
    | apply readonly_try_finally
    | match goal with
      | |- readonly (let '(_, _) := ?x in _) => destruct x
      | |- readonly (if decide ?P then _ else _) => destruct (decide P)
      | |- readonly (match ?x with _ => _ end) => is_var x; destruct x
      | |- readonly (if ?x then _ else _) => destruct x
      end ].

Lemma restoreControlledDocContentForDoc_readonly db params doc attribute :
  dryRun params = true →
  readonly (restoreControlledDocContentForDoc db params doc attribute).
Proof.
  intros Hdry. unfold restoreControlledDocContentForDoc. rewrite Hdry. simpl.
  destruct (_ !! attribute) as [value|]; [|repeat readonly_step].
  destruct (includes_colon value); repeat readonly_step.
Qed.

Lemma restoreControlledDocContent_loop_readonly db params iterator :
  dryRun params = true →
  readonly (restoreControlledDocContent_loop db params iterator).
Proof.
  intros Hdry. induction iterator as [|doc iterator IH]; simpl.
  - apply readonly_ret.
  - apply readonly_bind;
      [by apply restoreControlledDocContentForDoc_readonly|].
    intros restored. repeat readonly_step. exact IH.
Qed.

Lemma restoreWikiContent_loop_readonly params iterator :
  dryRun params = true →
  readonly (restoreWikiContent_loop params iterator).
Proof.
  intros Hdry. induction iterator as [|doc iterator IH]; simpl.
  - apply readonly_ret.
  - rewrite Hdry. simpl. repeat readonly_step; exact IH.
Qed.

(** *** What a dry run reports *)

Lemma restoreControlledDocContentForDoc_restorable db params doc attribute st :
  dryRun params = true →
  restorable db (storage st) doc attribute →
  let res := restoreControlledDocContentForDoc db params doc attribute st in
  res.1 = Ok true
  ∧ storage res.2 = storage st
  ∧ processedCnt res.2 = processedCnt st
  ∧ restoredCnt res.2 = restoredCnt st.
Proof.
  intros Hdry (tx & attrs & value & Htx & Hattrs & Hval & Hinc & Hstat).
  unfold restoreControlledDocContentForDoc. unfold createTxOf in Htx.
  rewrite Htx, Hattrs. simpl. rewrite Hval, Hinc, Hdry. simpl.
  unfold mbind, M_bind, await_read. rewrite Hstat. simpl. done.
Qed.

Lemma bind_Ok {A B} (m : M A) (f : A → M B) st a st' :
  m st = (Ok a, st') → (m ≫= f) st = f a st'.
Proof. intros Hm. unfold mbind, M_bind. by rewrite Hm. Qed.

Lemma bind_Throw {A B} (m : M A) (f : A → M B) st err st' :
  m st = (Throw err, st') → (m ≫= f) st = (Throw err, st').
Proof. intros Hm. unfold mbind, M_bind. by rewrite Hm. Qed.

Lemma restoreControlledDocContent_loop_counts db params iterator st :
  dryRun params = true →
  (∀ doc, doc ∈ iterator → restorable db (storage st) doc "content") →
  let res := restoreControlledDocContent_loop db params iterator st in
  res.1 = Ok tt
  ∧ storage res.2 = storage st
  ∧ processedCnt res.2 = processedCnt st + length iterator
  ∧ restoredCnt res.2 = restoredCnt st + length iterator.
Proof.
  intros Hdry. revert st.
  induction iterator as [|doc iterator IH]; intros st Hall.
  - simpl. split_and!; [done..|lia|lia].
  - destruct (restoreControlledDocContentForDoc_restorable db params doc
                "content" st Hdry) as (Hres & Hs & Hp & Hr);
      [apply Hall; left|].
    destruct (restoreControlledDocContentForDoc db params doc "content" st)
      as [r st1] eqn:Hfd. simpl in Hres, Hs, Hp, Hr. subst r.
    change (restoreControlledDocContent_loop db params (doc :: iterator))
      with (restored ← restoreControlledDocContentForDoc db params doc
                         "content";
            (if restored : bool then
               '(p, r) ← get_counters;
               set_counters p (r + 1)
             else mret tt);;
            '(p, r) ← get_counters;
            set_counters (p + 1) r;;
            (if decide ((p + 1) mod 100 = 0) then printStats else mret tt);;
            restoreControlledDocContent_loop db params iterator).
    cbv zeta. rewrite (bind_Ok _ _ _ _ _ Hfd).
    unfold mbind, M_bind, get_counters, set_counters.
    cbn -[Nat.modulo restoreControlledDocContent_loop printStats].
    destruct (decide ((processedCnt st1 + 1) mod 100 = 0));
      unfold printStats, mbind, M_bind, get_counters, trace;
      cbn -[restoreControlledDocContent_loop];
      (match goal with
       | |- context [restoreControlledDocContent_loop _ _ iterator ?st2] =>
         destruct (IH st2) as (Hres' & Hs' & Hp' & Hr');
           [simpl; rewrite Hs; intros d Hd; apply Hall; by right|]
       end);
      simpl in Hs', Hp', Hr';
      (split_and!; [done|congruence|lia|lia]).
Qed.

Lemma content_not_inherited : "content" ∉ Object_prototype.
Proof. apply (bool_decide_unpack _). vm_compute. exact I. Qed.

(** What a dry run does with one document of the cursor. *)
Lemma restoreControlledDocContentForDoc_dry db params doc st :
  dryRun params = true →
  let res := restoreControlledDocContentForDoc db params doc "content" st in
  storage res.2 = storage st
  ∧ processedCnt res.2 = processedCnt st
  ∧ restoredCnt res.2 = restoredCnt st
  ∧ match res.1 with
    | Ok b => b = bool_decide (restorable db (storage st) doc "content")
    | Throw err =>
      stat (storage st) (makeCollabYdocId (makeDocCollabId doc "content"))
      = Throw err
    end.
Proof.
  intros Hdry.
  destruct (decide (restorable db (storage st) doc "content")) as [Hyes|Hno].
  { destruct (restoreControlledDocContentForDoc_restorable db params doc
                "content" st Hdry Hyes) as (Hres & Hs & Hp & Hr).
    split_and!; [done..|]. rewrite Hres. by rewrite bool_decide_eq_true_2. }
  rewrite (bool_decide_eq_false_2 _ Hno).
  unfold restorable in Hno. unfold restoreControlledDocContentForDoc.
  cbv zeta. change (Array_find _ (DOMAIN_TX db)) with (createTxOf db doc).
  rewrite Hdry.
  assert (∀ attributes : gmap string string,
    (∀ value, attributes !! "content" = Some value →
              includes_colon value = true →
              stat (storage st)
                (makeCollabYdocId (makeDocCollabId doc "content"))
              ≠ Ok None) →
    let res :=
      match attributes !! "content" with
      | Some value =>
        if includes_colon value then
          let currentYdocId := before_colon value in
          let ydocId := makeCollabYdocId (makeDocCollabId doc "content") in
          stat_ ← await_read (call_stat ydocId) (λ s, stat s ydocId);
          match stat_ with
          | Some _ =>
            trace (console_log
                     [LStr "content already restored"; LStr (doc_class doc);
                      LStr (doc_id doc); LStr ydocId]);;
            mret false
          | None =>
            trace (console_log
                     [LStr "restoring content"; LStr (doc_id doc);
                      LStr currentYdocId; LStr "-->"; LStr ydocId]);;
            returned ← (mret None : M (option bool));
            match returned with
            | Some b => mret b
            | None => mret true
            end
          end
        else
          trace (console_log
                   [LStr "no content to restore"; LStr (doc_class doc);
                    LStr (doc_id doc)]);;
          mret false
      | None =>
        if decide ("content" ∈ Object_prototype) then
          throw "TypeError: value.includes is not a function"
        else
          trace (console_log
                   [LStr "no content to restore"; LStr (doc_class doc);
                    LStr (doc_id doc)]);;
          mret false
      end st in
    storage res.2 = storage st
    ∧ processedCnt res.2 = processedCnt st
    ∧ restoredCnt res.2 = restoredCnt st
    ∧ match res.1 with
      | Ok b => b = false
      | Throw err =>
        stat (storage st) (makeCollabYdocId (makeDocCollabId doc "content"))
        = Throw err
      end) as Hrun.
  { intros attributes Hnot.
    destruct (attributes !! "content") as [value|].
    - destruct (includes_colon value) eqn:Hinc; [|done].
      unfold mbind, M_bind, await_read, trace, mret, M_ret. simpl.
      destruct (stat (storage st) _) as [[n|]|err] eqn:Hstat; simpl.
      + done.
      + by destruct (Hnot value).
      + done.
    - rewrite decide_False by apply content_not_inherited. done. }
  simpl negb. cbv iota.
  destruct (createTxOf db doc) as [tx|].
  - destruct (tx_attributes tx) as [attributes|] eqn:Hattrs; simpl.
    + apply Hrun. intros value Hvalue Hinc Hstat. apply Hno.
      by exists tx, attributes, value.
    + apply (Hrun ∅). intros value Hvalue. by rewrite lookup_empty in Hvalue.
  - apply (Hrun ∅). intros value Hvalue. by rewrite lookup_empty in Hvalue.
Qed.

(** A dry run counts the restorable documents among those it gets through. *)
Lemma restoreControlledDocContent_loop_dry db params iterator st :
  dryRun params = true →
  let res := restoreControlledDocContent_loop db params iterator st in
  storage res.2 = storage st
  ∧ ∃ k, k ≤ length iterator
         ∧ processedCnt res.2 = processedCnt st + k
         ∧ restoredCnt res.2
           = restoredCnt st
             + length (filter (λ d, restorable db (storage st) d "content")
                         (take k iterator))
         ∧ (res.1 = Ok tt → k = length iterator)
         ∧ ((∀ doc, doc ∈ iterator →
               ∃ r, stat (storage st)
                      (makeCollabYdocId (makeDocCollabId doc "content"))
                    = Ok r) →
            res.1 = Ok tt).
Proof.
  intros Hdry. revert st.
  induction iterator as [|doc iterator IH]; intros st.
  - simpl. split; [done|]. exists 0. split_and!; (done || simpl; lia).
  - destruct (restoreControlledDocContentForDoc_dry db params doc st Hdry)
      as (Hs & Hp & Hr & Hout).
    change (restoreControlledDocContent_loop db params (doc :: iterator))
      with (restored ← restoreControlledDocContentForDoc db params doc
                         "content";
            (if restored : bool then
               '(p, r) ← get_counters;
               set_counters p (r + 1)
             else mret tt);;
            '(p, r) ← get_counters;
            set_counters (p + 1) r;;
            (if decide ((p + 1) mod 100 = 0) then printStats else mret tt);;
            restoreControlledDocContent_loop db params iterator).
    cbv zeta.
    destruct (restoreControlledDocContentForDoc db params doc "content" st)
      as [[restored|err] st1] eqn:Hfd; simpl in Hs, Hp, Hr, Hout.
    + rewrite (bind_Ok _ _ _ _ _ Hfd).
      assert (∀ st2 : State S Y,
        storage st2 = storage st →
        processedCnt st2 = processedCnt st + 1 →
        restoredCnt st2 = restoredCnt st + (if restored then 1 else 0) →
        let res := restoreControlledDocContent_loop db params iterator st2 in
        storage res.2 = storage st
        ∧ ∃ k, k ≤ length (doc :: iterator)
               ∧ processedCnt res.2 = processedCnt st + k
               ∧ restoredCnt res.2
                 = restoredCnt st
                   + length (filter
                               (λ d, restorable db (storage st) d "content")
                               (take k (doc :: iterator)))
               ∧ (res.1 = Ok tt → k = length (doc :: iterator))
               ∧ ((∀ d, d ∈ doc :: iterator →
                     ∃ r, stat (storage st)
                            (makeCollabYdocId (makeDocCollabId d "content"))
                          = Ok r) →
                  res.1 = Ok tt)) as Hrest.
      { intros st2 Hs2 Hp2 Hr2 res. subst res.
        destruct (IH st2) as (Hs' & k & Hk & Hp' & Hr' & Hok & Htotal).
        rewrite Hs2 in *. split; [done|]. exists (Datatypes.S k).
        split_and!.
        - simpl. lia.
        - lia.
        - rewrite Hr', Hr2. simpl take. rewrite filter_cons. subst restored.
          destruct (decide (restorable db (storage st) doc "content")).
          + rewrite bool_decide_eq_true_2 by done. simpl. lia.
          + rewrite bool_decide_eq_false_2 by done. simpl. lia.
        - intros Hres. simpl. by rewrite (Hok Hres).
        - intros Hall. apply Htotal. intros d Hd. apply Hall. by right. }
      unfold mbind, M_bind, get_counters, set_counters, mret, M_ret.
      destruct restored;
        cbn -[Nat.modulo restoreControlledDocContent_loop printStats];
        (destruct (decide ((processedCnt st1 + 1) mod 100 = 0));
         unfold printStats, mbind, M_bind, get_counters, trace, mret, M_ret;
         cbn -[restoreControlledDocContent_loop];
         apply Hrest; simpl; (done || lia)).
    + rewrite (bind_Throw _ _ _ _ _ Hfd). simpl. split; [done|].
      exists 0. split_and!; [lia|lia|simpl; lia|done|].
      intros Hall. destruct (Hall doc) as [r Hstat]; [left|]. congruence.
Qed.

(** C10. With [dryRun] set, the restore functions write nothing: from any
    state, and whatever the storage adapter and the collaboration library
    answer, each of them leaves the storage as it was and reaches neither
    [put] nor [saveCollabYdoc].  [restoreControlledDocContentForDoc] still
    returns [true] for a document whose create transaction holds the old
    content reference while the storage holds nothing under the new id, and
    [restoreControlledDocContentMongo] counts such documents as restored:
    whatever else the cursor yields, the documents it counts as restored are
    exactly the restorable ones among the documents it has processed, and it
    processes them all unless a [stat] throws. *)
Theorem dryRun_writes_nothing db params :
  dryRun params = true →
  readonly (restoreWikiContentMongo db params)
  ∧ readonly (restoreControlledDocContentMongo db params)
  ∧ (∀ doc attribute,
       readonly (restoreControlledDocContentForDoc db params doc attribute))
  ∧ (∀ doc attribute st,
       restorable db (storage st) doc attribute →
       (restoreControlledDocContentForDoc db params doc attribute st).1
       = Ok true)
  ∧ (∀ st,
       (∀ doc, doc ∈ controlledDocs db →
               restorable db (storage st) doc "content") →
       let res := restoreControlledDocContentMongo db params st in
       res.1 = Ok tt
       ∧ processedCnt res.2 = length (controlledDocs db)
       ∧ restoredCnt res.2 = length (controlledDocs db))
  ∧ (∀ st,
       let res := restoreControlledDocContentMongo db params st in
       restoredCnt res.2
       = length (filter (λ d, restorable db (storage st) d "content")
                   (take (processedCnt res.2) (controlledDocs db)))
       ∧ (res.1 = Ok tt → processedCnt res.2 = length (controlledDocs db))
       ∧ ((∀ doc, doc ∈ controlledDocs db →
             ∃ r, stat (storage st)
                    (makeCollabYdocId (makeDocCollabId doc "content"))
                  = Ok r) →
          res.1 = Ok tt)).
Proof.
  intros Hdry. split_and!.
  - unfold restoreWikiContentMongo. repeat readonly_step.
    by apply restoreWikiContent_loop_readonly.
  - unfold restoreControlledDocContentMongo. repeat readonly_step.
    by apply restoreControlledDocContent_loop_readonly.
  - intros doc attribute.
    by apply restoreControlledDocContentForDoc_readonly.
  - intros doc attribute st Hres.
    by apply restoreControlledDocContentForDoc_restorable.
  - intros st Hall. unfold restoreControlledDocContentMongo.
    fold (controlledDocs db).
    unfold mbind, M_bind, set_counters, try_finally. simpl.
    match goal with
    | |- context [restoreControlledDocContent_loop db params _ ?st0] =>
      destruct (restoreControlledDocContent_loop_counts db params
                  (controlledDocs db) st0 Hdry) as (Hres & Hs & Hp & Hr);
        [exact Hall|]
    end.
    destruct (restoreControlledDocContent_loop _ _ _ _) as [r st1].
    simpl in *. subst r. done.
  - intros st. unfold restoreControlledDocContentMongo.
    fold (controlledDocs db).
    unfold mbind, M_bind, set_counters, try_finally. simpl.
    match goal with
    | |- context [restoreControlledDocContent_loop db params _ ?st0] =>
      destruct (restoreControlledDocContent_loop_dry db params
                  (controlledDocs db) st0 Hdry)
        as (Hs & k & Hk & Hp & Hr & Hok & Htotal)
    end.
    destruct (restoreControlledDocContent_loop _ _ _ _) as [r st1].
    simpl in *. rewrite Hp. split_and!; [done| |done].
    intros Hres. by rewrite (Hok Hres).
Qed.

(** ** Further properties of the restore tool *)

(** The value [restoreControlledDocContentForDoc] reads from the create
    transaction of [doc]. *)
Definition legacyValue (db : Db) (doc : Doc) (attribute : string)
    : option string :=
  match createTxOf db doc with
  | Some tx => tx_attributes tx ?? ∅
  | None => ∅
  end !! attribute.

(** A computation only adds calls that satisfy [P] to the trace. *)
Definition emits (P : Call Y → Prop) {A} (m : M A) : Prop :=
  ∀ st, ∃ new, calls (m st).2 = calls st ++ new ∧ Forall P new.

(** A computation leaves the two counters as they are. *)
Definition keeps_counters {A} (m : M A) : Prop :=
  ∀ st, processedCnt (m st).2 = processedCnt st
        ∧ restoredCnt (m st).2 = restoredCnt st.

(** The line [printStats] prints in state [st]. *)
Definition statsLine (st : State S Y) : Call Y :=
  console_log [LStr "...processed"; LNum (processedCnt st);
               LStr "restored"; LNum (restoredCnt st)].

(** The documents [restoreWikiContentMongo] iterates over. *)
Definition wikiDocs (db : Db) : list Doc :=
  filter (λ d, doc_class d = document_class_Document) (DOMAIN_DOCUMENT db).

(** *** Cleaning up *)

(** X11. Both tools always end by printing the statistics and closing the
    cursor, also when a call on the storage throws: the last two calls of a
    run are the statistics line, showing the final counters, and
    [iterator.close()]. *)
Theorem runs_end_with_stats_and_close db params st :
  (let st' := (restoreWikiContentMongo db params st).2 in
   ∃ pre, calls st' = pre ++ [statsLine st'; iterator_close])
  ∧ (let st' := (restoreControlledDocContentMongo db params st).2 in
     ∃ pre, calls st' = pre ++ [statsLine st'; iterator_close]).
Proof.
  split.
  - unfold restoreWikiContentMongo, try_finally, mbind, M_bind, set_counters,
      printStats, get_counters, trace, mbind, M_bind. simpl.
    destruct (restoreWikiContent_loop _ _ _) as [r st1]. simpl.
    exists (calls st1). by rewrite <- app_assoc.
  - unfold restoreControlledDocContentMongo, try_finally, mbind, M_bind,
      set_counters, printStats, get_counters, trace, mbind, M_bind. simpl.
    destruct (restoreControlledDocContent_loop _ _ _ _) as [r st1]. simpl.
    exists (calls st1). by rewrite <- app_assoc.
Qed.

(** *** One document *)

Ltac run_ForDoc :=
  unfold restoreControlledDocContentForDoc, legacyValue, createTxOf in *;
  cbv zeta in *.

Ltac step_M :=
  unfold mbind, M_bind, mret, M_ret, try_catch, await_read, await_write,
    trace; simpl.

Lemma restoreControlledDocContentForDoc_Throw db params doc attribute st err :
  (restoreControlledDocContentForDoc db params doc attribute st).1 = Throw err
  → stat (storage st) (makeCollabYdocId (makeDocCollabId doc attribute))
    = Throw err
    ∨ (legacyValue db doc attribute = None ∧ attribute ∈ Object_prototype).
Proof.
  run_ForDoc.
  destruct (_ !! attribute) as [value|].
  - destruct (includes_colon value); [|done].
    step_M.
    destruct (stat (storage st) _) as [[n|]|e] eqn:Hstat; simpl; [done| |].
    + destruct (dryRun params); simpl; [done|].
      destruct (stat (storage st) (before_colon value)) as [[n|]|e];
        simpl; [|done..].
      destruct (read (storage st) (before_colon value)) as [buffer|e];
        simpl; [|done].
      by destruct (put _ _ _ _ _) as [[[]|e] s'].
    + intros [= ->]. by left.
  - destruct (decide (attribute ∈ Object_prototype)); [|done].
    intros _. by right.
Qed.



(** X14. Without [dryRun], when the old reference is there, the storage
    holds nothing under the new id, and the old blob is found and read, the
    tool puts the concatenation of the chunks it read under the new id, as
    [application/ydoc] and with the number of chunks as size, and returns
    [true] when [put] succeeds; the storage is then what [put] made of it. *)
Theorem restoreControlledDocContentForDoc_copies
    db params doc attribute st value n buffer s' :
  dryRun params = false →
  legacyValue db doc attribute = Some value →
  includes_colon value = true →
  let ydocId := makeCollabYdocId (makeDocCollabId doc attribute) in
  let currentYdocId := before_colon value in
  stat (storage st) ydocId = Ok None →
  stat (storage st) currentYdocId = Ok (Some n) →
  read (storage st) currentYdocId = Ok buffer →
  put (storage st) ydocId (concat buffer) "application/ydoc" (length buffer)
  = (Ok tt, s') →
  let res := restoreControlledDocContentForDoc db params doc attribute st in
  res.1 = Ok true
  ∧ storage res.2 = s'
  ∧ filter (λ c, is_write c = true) (calls res.2)
    = filter (λ c, is_write c = true) (calls st)
      ++ [call_put ydocId (concat buffer) "application/ydoc" (length buffer)].
Proof.
  intros Hdry Hval Hinc ydocId currentYdocId Hnew Hold Hread Hput.
  subst ydocId currentYdocId. run_ForDoc.
  rewrite Hval, Hinc, Hdry. step_M.
  rewrite Hnew. simpl. rewrite Hold. simpl. rewrite Hread. simpl.
  rewrite Hput. simpl. split_and!; [done..|].
  rewrite !filter_app. simpl. by rewrite !app_nil_r.
Qed.

(** X15. A dry run reports more than a real run restores: when the old
    reference is there and the storage holds nothing under the new id, but
    the old blob is missing too, the dry run returns [true] while the real
    run returns [false]; neither changes the storage. *)
Theorem dryRun_reports_missing_blob db doc attribute st value :
  legacyValue db doc attribute = Some value →
  includes_colon value = true →
  stat (storage st) (makeCollabYdocId (makeDocCollabId doc attribute))
  = Ok None →
  stat (storage st) (before_colon value) = Ok None →
  let dry :=
    restoreControlledDocContentForDoc db {| dryRun := true |} doc attribute
      st in
  let real :=
    restoreControlledDocContentForDoc db {| dryRun := false |} doc attribute
      st in
  dry.1 = Ok true ∧ real.1 = Ok false
  ∧ storage dry.2 = storage st ∧ storage real.2 = storage st.
Proof.
  intros Hval Hinc Hnew Hold. run_ForDoc.
  rewrite Hval, Hinc. step_M. rewrite Hnew. simpl. rewrite Hold. done.
Qed.

(** *** The counters *)

Lemma keeps_counters_ret {A} (a : A) : keeps_counters (mret a).
Proof. by intros st. Qed.

Lemma keeps_counters_bind {A B} (m : M A) (f : A → M B) :
  keeps_counters m → (∀ a, keeps_counters (f a)) → keeps_counters (m ≫= f).
Proof.
  intros Hm Hf st. unfold mbind, M_bind. destruct (Hm st) as [Hp Hr].
  destruct (m st) as [[a|err] st1]; simpl in *; [|done].
  destruct (Hf a st1) as [Hp' Hr']. split; congruence.
Qed.

Lemma keeps_counters_try_catch {A} (body : M A) (handler : string → M A) :
  keeps_counters body → (∀ err, keeps_counters (handler err)) →
  keeps_counters (try_catch body handler).
Proof.
  intros Hm Hf st. unfold try_catch. destruct (Hm st) as [Hp Hr].
  destruct (body st) as [[a|err] st1]; simpl in *; [done|].
  destruct (Hf err st1) as [Hp' Hr']. split; congruence.
Qed.

Lemma keeps_counters_throw {A} (err : string) :
  keeps_counters (throw err : M A).
Proof. by intros st. Qed.

Lemma keeps_counters_trace (c : Call Y) : keeps_counters (trace c).
Proof. by intros st. Qed.

Lemma keeps_counters_await_read {A} (c : Call Y) (op : S → Outcome A) :
  keeps_counters (await_read c op).
Proof. by intros st. Qed.

Lemma keeps_counters_await_write (c : Call Y) (op : S → Outcome unit * S) :
  keeps_counters (await_write c op).
Proof. intros st. unfold await_write. by destruct (op (storage st)). Qed.

Lemma restoreControlledDocContentForDoc_keeps_counters
    db params doc attribute :
  keeps_counters (restoreControlledDocContentForDoc db params doc attribute).
Proof.
  unfold restoreControlledDocContentForDoc. cbv zeta.
  repeat first
    [ apply keeps_counters_ret
    | apply keeps_counters_throw
    | apply keeps_counters_trace
    | apply keeps_counters_await_read
    | apply keeps_counters_await_write
    | apply keeps_counters_bind; [|intros ?]
    | apply keeps_counters_try_catch; [|intros ?]
    | match goal with
      | |- keeps_counters (match ?x with _ => _ end) => destruct x
      end ].
Qed.

Lemma restoreControlledDocContent_loop_counters db params iterator st :
  let res := restoreControlledDocContent_loop db params iterator st in
  processedCnt st ≤ processedCnt res.2
  ∧ processedCnt res.2 ≤ processedCnt st + length iterator
  ∧ restoredCnt st ≤ restoredCnt res.2
  ∧ restoredCnt res.2 + processedCnt st ≤ processedCnt res.2 + restoredCnt st
  ∧ (res.1 = Ok tt → processedCnt res.2 = processedCnt st + length iterator)
  ∧ ((∀ s id, ∃ r, stat s id = Ok r) → res.1 = Ok tt).
Proof.
  revert st. induction iterator as [|doc iterator IH]; intros st.
  - simpl. split_and!; (done || lia).
  - change (restoreControlledDocContent_loop db params (doc :: iterator))
      with (restored ← restoreControlledDocContentForDoc db params doc
                         "content";
            (if restored : bool then
               '(p, r) ← get_counters;
               set_counters p (r + 1)
             else mret tt);;
            '(p, r) ← get_counters;
            set_counters (p + 1) r;;
            (if decide ((p + 1) mod 100 = 0) then printStats else mret tt);;
            restoreControlledDocContent_loop db params iterator).
    cbv zeta.
    destruct (restoreControlledDocContentForDoc_keeps_counters db params doc
                "content" st) as [Hp Hr].
    destruct (restoreControlledDocContentForDoc db params doc "content" st)
      as [[restored|err] st1] eqn:Hfd; simpl in Hp, Hr.
    + rewrite (bind_Ok _ _ _ _ _ Hfd).
      unfold mbind, M_bind, get_counters, set_counters, mret, M_ret.
      destruct restored;
        cbn -[Nat.modulo restoreControlledDocContent_loop printStats];
        (destruct (decide ((processedCnt st1 + 1) mod 100 = 0));
         unfold printStats, mbind, M_bind, get_counters, trace, mret, M_ret;
         cbn -[restoreControlledDocContent_loop];
         (match goal with
          | |- context [restoreControlledDocContent_loop _ _ iterator ?st2] =>
            destruct (IH st2) as (H1 & H2 & H3 & H4 & H5 & H6)
          end);
         simpl in H1, H2, H3, H4, H5;
         (split_and!; [lia|lia|lia|lia|intros Hok; rewrite (H5 Hok); lia|done])).
    + rewrite (bind_Throw _ _ _ _ _ Hfd). simpl.
      split_and!; [lia|lia|lia|lia|done|].
      intros Htotal. exfalso.
      assert ((restoreControlledDocContentForDoc db params doc "content" st).1
              = Throw err) as Hthrow by (by rewrite Hfd).
      apply restoreControlledDocContentForDoc_Throw in Hthrow
        as [Hstat|[_ Hin]]; [|by apply content_not_inherited in Hin].
      destruct (Htotal (storage st)
                  (makeCollabYdocId (makeDocCollabId doc "content")))
        as [r Hr']. congruence.
Qed.


Lemma restoreWikiContent_loop_counters params iterator st :
  let res := restoreWikiContent_loop params iterator st in
  processedCnt st ≤ processedCnt res.2
  ∧ processedCnt res.2 ≤ processedCnt st + length iterator
  ∧ restoredCnt st ≤ restoredCnt res.2
  ∧ restoredCnt res.2 + processedCnt st ≤ processedCnt res.2 + restoredCnt st
  ∧ (res.1 = Ok tt → processedCnt res.2 = processedCnt st + length iterator)
  ∧ ((∀ s id, ∃ r, loadCollabYdoc s id = Ok r) → res.1 = Ok tt).
Proof.
  revert st. induction iterator as [|doc iterator IH]; intros st.
  - simpl. split_and!; (done || lia).
  - assert (∀ st2 : State S Y,
      processedCnt st2 = processedCnt st + 1 →
      restoredCnt st ≤ restoredCnt st2 ≤ restoredCnt st + 1 →
      let res := restoreWikiContent_loop params iterator st2 in
      processedCnt st ≤ processedCnt res.2
      ∧ processedCnt res.2 ≤ processedCnt st + length (doc :: iterator)
      ∧ restoredCnt st ≤ restoredCnt res.2
      ∧ restoredCnt res.2 + processedCnt st
        ≤ processedCnt res.2 + restoredCnt st
      ∧ (res.1 = Ok tt →
         processedCnt res.2 = processedCnt st + length (doc :: iterator))
      ∧ ((∀ s id, ∃ r, loadCollabYdoc s id = Ok r) → res.1 = Ok tt)) as Hrest.
    { intros st2 Hp Hr res. subst res.
      destruct (IH st2) as (H1 & H2 & H3 & H4 & H5 & H6). simpl length.
      split_and!; [lia|lia|lia|lia|intros Hok; rewrite (H5 Hok); lia|done]. }
    cbn -[Nat.modulo printStats].
    unfold mbind, M_bind, get_counters, set_counters, mret, M_ret, try_catch,
      await_read, await_write, trace.
    cbn -[Nat.modulo restoreWikiContent_loop printStats].
    destruct (decide ((processedCnt st + 1) mod 100 = 0));
      unfold printStats, mbind, M_bind, get_counters, trace, mret, M_ret;
      cbn -[restoreWikiContent_loop].
    all: repeat
      (cbn -[restoreWikiContent_loop];
       match goal with
       | |- context [match loadCollabYdoc ?s ?c with _ => _ end] =>
         destruct (loadCollabYdoc s c) as [[?|]|?] eqn:?
       | |- context [dryRun ?p] => destruct (dryRun p)
       | |- context [share_has ?y ?k] => destruct (share_has y k)
       | |- context [saveCollabYdoc ?s ?c ?y] =>
         destruct (saveCollabYdoc s c y) as [[[]|?] ?]
       end).
    all: cbn -[restoreWikiContent_loop].
    all: first
      [ apply Hrest; simpl; lia
      | split_and!; [lia|lia|lia|lia|done|]; intros Htotal;
        match goal with
        | Hload : loadCollabYdoc ?s ?c = Throw _ |- _ =>
          destruct (Htotal s c) as [? ?]; congruence
        end ].
Qed.


(** *** Where the tools write *)

(** A write of the wiki tool: it saves the [content] document of one of
    [docs]. *)
Definition wikiWrite (docs : list Doc) (c : Call Y) : Prop :=
  is_write c = true →
  ∃ doc ydoc,
    doc ∈ docs
    ∧ c = call_saveCollabYdoc
            {| objectClass := doc_class doc; objectId := doc_id doc;
               objectAttr := "content" |} ydoc.

(** A write of the controlled-documents tool: it puts a blob under the new
    [content] id of one of [docs]. *)
Definition controlledWrite (docs : list Doc) (c : Call Y) : Prop :=
  is_write c = true →
  ∃ doc data size,
    doc ∈ docs
    ∧ c = call_put (makeCollabYdocId (makeDocCollabId doc "content")) data
            "application/ydoc" size.

Lemma emits_ret (P : Call Y → Prop) {A} (a : A) : emits P (mret a).
Proof. intros st. exists []. by rewrite app_nil_r. Qed.

Lemma emits_bind (P : Call Y → Prop) {A B} (m : M A) (f : A → M B) :
  emits P m → (∀ a, emits P (f a)) → emits P (m ≫= f).
Proof.
  intros Hm Hf st. unfold mbind, M_bind.
  destruct (Hm st) as (new & Hc & Hnew).
  destruct (m st) as [[a|err] st1]; simpl in *.
  - destruct (Hf a st1) as (new' & Hc' & Hnew').
    exists (new ++ new'). rewrite Hc', Hc, app_assoc.
    split; [done|]. by apply Forall_app.
  - by exists new.
Qed.

Lemma emits_try_catch (P : Call Y → Prop) {A} (body : M A)
    (handler : string → M A) :
  emits P body → (∀ err, emits P (handler err)) →
  emits P (try_catch body handler).
Proof.
  intros Hm Hf st. unfold try_catch.
  destruct (Hm st) as (new & Hc & Hnew).
  destruct (body st) as [[a|err] st1]; simpl in *.
  - by exists new.
  - destruct (Hf err st1) as (new' & Hc' & Hnew').
    exists (new ++ new'). rewrite Hc', Hc, app_assoc.
    split; [done|]. by apply Forall_app.
Qed.

Lemma emits_try_finally (P : Call Y → Prop) {A} (body : M A) (fin : M unit) :
  emits P body → emits P fin → emits P (try_finally body fin).
Proof.
  intros Hm Hf st. unfold try_finally.
  destruct (Hm st) as (new & Hc & Hnew).
  destruct (body st) as [r st1]; simpl in *.
  destruct (Hf st1) as (new' & Hc' & Hnew').
  assert (∃ new0, calls (fin st1).2 = calls st ++ new0 ∧ Forall P new0)
    as Hfin.
  { exists (new ++ new'). rewrite Hc', Hc, app_assoc.
    split; [done|]. by apply Forall_app. }
  by destruct (fin st1) as [[[]|err] st2].
Qed.

Lemma emits_throw (P : Call Y → Prop) {A} (err : string) :
  emits P (throw err : M A).
Proof. intros st. exists []. by rewrite app_nil_r. Qed.

Lemma emits_trace (P : Call Y → Prop) (c : Call Y) : P c → emits P (trace c).
Proof. intros Hc st. exists [c]. split; [done|]. by apply Forall_singleton. Qed.

Lemma emits_await_read (P : Call Y → Prop) {A} (c : Call Y)
    (op : S → Outcome A) :
  P c → emits P (await_read c op).
Proof. intros Hc st. exists [c]. split; [done|]. by apply Forall_singleton. Qed.

Lemma emits_await_write (P : Call Y → Prop) (c : Call Y)
    (op : S → Outcome unit * S) :
  P c → emits P (await_write c op).
Proof.
  intros Hc st. exists [c]. unfold await_write.
  destruct (op (storage st)). split; [done|]. by apply Forall_singleton.
Qed.

Lemma emits_get_counters (P : Call Y → Prop) : emits P get_counters.
Proof. intros st. exists []. by rewrite app_nil_r. Qed.

Lemma emits_set_counters (P : Call Y → Prop) p r : emits P (set_counters p r).
Proof. intros st. exists []. simpl. by rewrite app_nil_r. Qed.

Lemma emits_mono (P Q : Call Y → Prop) {A} (m : M A) :
  (∀ c, P c → Q c) → emits P m → emits Q m.
Proof.
  intros HPQ Hm st. destruct (Hm st) as (new & Hc & Hnew).
  exists new. split; [done|]. by eapply Forall_impl.
Qed.

Ltac emits_step :=
  first
    [ apply emits_ret
    | apply emits_throw
    | apply emits_get_counters
    | apply emits_set_counters
    | apply emits_trace; intros ?; done
    | apply emits_await_read; intros ?; done
    | apply emits_bind; [|intros ?]
    | apply emits_try_catch; [|intros ?]
    | apply emits_try_finally
    | match goal with
      | |- emits _ (let '(_, _) := ?x in _) => destruct x
      | |- emits _ (if decide ?P then _ else _) => destruct (decide P)
      | |- emits _ (match ?x with _ => _ end) => is_var x; destruct x
      | |- emits _ (if ?x then _ else _) => destruct x
      end ].

Lemma restoreControlledDocContentForDoc_emits db params doc :
  emits (controlledWrite [doc])
    (restoreControlledDocContentForDoc db params doc "content").
Proof.
  unfold restoreControlledDocContentForDoc. cbv zeta.
  destruct (_ !! "content") as [value|]; [|repeat emits_step].
  repeat emits_step.
  apply emits_await_write. intros _. eexists doc, _, _. split; [left|done].
Qed.

Lemma restoreControlledDocContent_loop_emits db params iterator :
  emits (controlledWrite iterator)
    (restoreControlledDocContent_loop db params iterator).
Proof.
  induction iterator as [|doc iterator IH]; simpl.
  - apply emits_ret.
  - apply emits_bind.
    + eapply emits_mono; [|apply restoreControlledDocContentForDoc_emits].
      intros c Hc Hw. destruct (Hc Hw) as (d & data & sz & Hd & ->).
      apply list_elem_of_singleton in Hd as ->.
      eexists doc, _, _. split; [left|done].
    + intros restored. unfold printStats. repeat emits_step.
      eapply emits_mono; [|exact IH].
      intros c Hc Hw. destruct (Hc Hw) as (d & data & sz & Hd & ->).
      eexists d, _, _. split; [by right|done].
Qed.

Lemma restoreWikiContent_loop_emits params iterator :
  emits (wikiWrite iterator) (restoreWikiContent_loop params iterator).
Proof.
  induction iterator as [|doc iterator IH]; simpl.
  - apply emits_ret.
  - assert (emits (wikiWrite (doc :: iterator))
              (restoreWikiContent_loop params iterator)) as Hrest.
    { eapply emits_mono; [|exact IH].
      intros c Hc Hw. destruct (Hc Hw) as (d & y & Hd & ->).
      eexists d, _. split; [by right|done]. }
    unfold printStats.
    repeat first
      [ exact Hrest
      | apply emits_await_write; intros _; eexists doc, _; split; [left|done]
      | emits_step ].
Qed.

(** X18. Every write of the tools is a content write: every
    [saveCollabYdoc] of the wiki tool is called with the [content] id of a
    document the cursor yields, and every [put] of the controlled-documents
    tool is called with the new [content] blob id of such a document, as
    [application/ydoc].  They make no other write call. *)
Theorem tools_write_only_content db params :
  emits (wikiWrite (wikiDocs db)) (restoreWikiContentMongo db params)
  ∧ emits (controlledWrite (controlledDocs db))
      (restoreControlledDocContentMongo db params).
Proof.
  split.
  - unfold restoreWikiContentMongo, printStats. fold (wikiDocs db).
    repeat emits_step. apply restoreWikiContent_loop_emits.
  - unfold restoreControlledDocContentMongo, printStats.
    fold (controlledDocs db).
    repeat emits_step. apply restoreControlledDocContent_loop_emits.
Qed.

(** *** What a dry run of the wiki tool counts *)

(** In the storage [s], [doc] has a description document and no content:
    the wiki tool restores it. *)
Definition wikiRestorable (s : S) (doc : Doc) : bool :=
  match loadCollabYdoc s {| objectClass := doc_class doc;
                            objectId := doc_id doc;
                            objectAttr := "content" |},
        loadCollabYdoc s {| objectClass := doc_class doc;
                            objectId := doc_id doc;
                            objectAttr := "description" |} with
  | Ok ydoc1, Ok (Some _) =>
    negb match ydoc1 with
         | Some ydoc1 => share_has ydoc1 "content"
         | None => false
         end
  | _, _ => false
  end.

Lemma restoreWikiContent_loop_dry_counts params iterator st :
  dryRun params = true →
  (∀ s id, ∃ r, loadCollabYdoc s id = Ok r) →
  let res := restoreWikiContent_loop params iterator st in
  res.1 = Ok tt
  ∧ storage res.2 = storage st
  ∧ restoredCnt res.2
    = restoredCnt st
      + length (filter (λ d, wikiRestorable (storage st) d = true) iterator).
Proof.
  intros Hdry Htotal. revert st.
  induction iterator as [|doc iterator IH]; intros st.
  - simpl. split_and!; [done..|lia].
  - assert (∀ (st2 : State S Y) k,
      storage st2 = storage st →
      restoredCnt st2 = restoredCnt st + k →
      k = (if wikiRestorable (storage st) doc then 1 else 0) →
      let res := restoreWikiContent_loop params iterator st2 in
      res.1 = Ok tt
      ∧ storage res.2 = storage st
      ∧ restoredCnt res.2
        = restoredCnt st
          + length (filter (λ d, wikiRestorable (storage st) d = true)
                      (doc :: iterator))) as Hrest.
    { intros st2 k Hs Hr -> res. subst res.
      destruct (IH st2) as (H1 & H2 & H3). rewrite Hs in H2, H3.
      split_and!; [done..|]. rewrite H3, Hr, filter_cons.
      destruct (wikiRestorable (storage st) doc); simpl; lia. }
    unfold wikiRestorable in Hrest.
    cbn -[Nat.modulo printStats]. rewrite Hdry.
    unfold mbind, M_bind, get_counters, set_counters, mret, M_ret, try_catch,
      await_read, await_write, trace.
    cbn -[Nat.modulo restoreWikiContent_loop printStats].
    destruct (decide ((processedCnt st + 1) mod 100 = 0));
      unfold printStats, mbind, M_bind, get_counters, trace, mret, M_ret;
      cbn -[restoreWikiContent_loop].
    all: destruct (Htotal (storage st)
                     {| objectClass := doc_class doc; objectId := doc_id doc;
                        objectAttr := "content" |}) as [ydoc1 Hl1].
    all: destruct (Htotal (storage st)
                     {| objectClass := doc_class doc; objectId := doc_id doc;
                        objectAttr := "description" |}) as [ydoc2 Hl2].
    all: rewrite Hl1, Hl2 in Hrest |- *; cbn -[restoreWikiContent_loop].
    all: destruct (match ydoc1 with
                   | Some y => share_has y "content"
                   | None => false
                   end);
      destruct ydoc2; cbn -[restoreWikiContent_loop] in Hrest |- *.
    all: first [ by apply (Hrest _ 0); simpl; (done || lia)
               | by apply (Hrest _ 1); simpl; (done || lia) ].
Qed.

(** X21. A dry run of the wiki tool over a storage whose reads do not throw
    counts as restored exactly the documents that have a description document
    and no content, and leaves the storage as it was. *)
Theorem restoreWikiContentMongo_dry_counts db params st :
  dryRun params = true →
  (∀ s id, ∃ r, loadCollabYdoc s id = Ok r) →
  let res := restoreWikiContentMongo db params st in
  res.1 = Ok tt
  ∧ storage res.2 = storage st
  ∧ restoredCnt res.2
    = length (filter (λ d, wikiRestorable (storage st) d = true)
                (wikiDocs db)).
Proof.
  intros Hdry Htotal. unfold restoreWikiContentMongo. fold (wikiDocs db).
  unfold try_finally, mbind, M_bind, set_counters, printStats, get_counters,
    trace, mbind, M_bind. simpl.
  match goal with
  | |- context [restoreWikiContent_loop params _ ?st0] =>
    destruct (restoreWikiContent_loop_dry_counts params (wikiDocs db) st0
                Hdry Htotal) as (H1 & H2 & H3)
  end.
  destruct (restoreWikiContent_loop _ _ _) as [r st1].
  simpl in *. by subst r.
Qed.

End Tool.

#[local] Existing Instances ex_platform ex_adapter ex_collab.

(** The example database with a second controlled document, one that has no
    create transaction. *)
Definition ex_db_mixed : Db :=
  {| DOMAIN_DOCUMENT := DOMAIN_DOCUMENT ex_db;
     DOMAIN_DOCUMENTS :=
       [ {| doc_id := "doc-2";
            doc_class := "documents:class:ControlledDocumentSnapshot" |};
         ex_doc ];
     DOMAIN_TX := DOMAIN_TX ex_db |}.

(** In the example workspace a dry run reports the controlled document as
    restored and leaves the storage alone, for both tools; with the second
    document in the cursor it processes two documents and counts one. *)
Lemma dryRun_writes_nothing_witness :
  (restoreControlledDocContentForDoc ex_db {| dryRun := true |} ex_doc
     "content" ex_state).1 = Ok true
  ∧ restoredCnt
      (restoreControlledDocContentMongo ex_db {| dryRun := true |}
         ex_state).2 = 1
  ∧ storage
      (restoreControlledDocContentMongo ex_db {| dryRun := true |}
         ex_state).2 = storage ex_state
  ∧ storage (restoreWikiContentMongo ex_db {| dryRun := true |} ex_state).2
    = storage ex_state
  ∧ processedCnt
      (restoreControlledDocContentMongo ex_db_mixed {| dryRun := true |}
         ex_state).2 = 2
  ∧ restoredCnt
      (restoreControlledDocContentMongo ex_db_mixed {| dryRun := true |}
         ex_state).2 = 1.
Proof.
  destruct (dryRun_writes_nothing ex_db_mixed {| dryRun := true |} eq_refl)
    as (_ & _ & _ & _ & _ & Hmixed).
  destruct (Hmixed ex_state) as (Hrestored & Hall & Hok).
  assert (processedCnt
            (restoreControlledDocContentMongo ex_db_mixed {| dryRun := true |}
               ex_state).2 = 2) as Hprocessed.
  { apply Hall, Hok. intros doc Hdoc. by eexists. }
  destruct (dryRun_writes_nothing ex_db {| dryRun := true |} eq_refl)
    as (Hwiki & Hcontrolled & _ & Htrue & Hcount & _).
  assert (restorable ex_db (storage ex_state) ex_doc "content") as Hres.
  { exists {| tx_class := "core:class:TxCreateDoc"; tx_objectId := "doc-1";
              tx_objectClass := "documents:class:ControlledDocument";
              tx_attributes :=
                Some {[ "content" := "65b7f82f4d422b89d4cbdd6f:HEAD:0" ]} |},
      {[ "content" := "65b7f82f4d422b89d4cbdd6f:HEAD:0" ]},
      "65b7f82f4d422b89d4cbdd6f:HEAD:0".
    split_and!; reflexivity. }
  split_and!.
  - by apply Htrue.
  - apply Hcount. intros doc Hdoc. vm_compute in Hdoc.
    apply list_elem_of_singleton in Hdoc as ->. exact Hres.
  - apply Hcontrolled.
  - apply Hwiki.
  - exact Hprocessed.
  - rewrite Hrestored, Hprocessed. reflexivity.
Defined.

(** Without [dryRun] the same run of [restoreControlledDocContentForDoc]
    does reach [put]. *)
Lemma restore_writes_when_not_dry :
  is_write <$>
    calls (restoreControlledDocContentForDoc ex_db {| dryRun := false |}
             ex_doc "content" ex_state).2
  = [false; false; false; false; true].
Proof. vm_compute. reflexivity. Qed.

(** *** The old content reference *)

Lemma append_cons (a : ascii) (s t : string) :
  String a s +:+ t = String a (s +:+ t).
Proof. done. Qed.

(** X19. Reading the blob id off a reference: the part before the first
    colon has no colon itself; a value without a colon is returned whole
    (such a value is refused as a reference), and a value with a colon is that
    part, a colon, and a rest. *)
Theorem before_colon_splits (value : string) :
  includes_colon (before_colon value) = false
  ∧ (includes_colon value = false → before_colon value = value)
  ∧ (includes_colon value = true →
     ∃ rest, value = before_colon value +:+ ":" +:+ rest).
Proof.
  induction value as [|c value (IH1 & IH2 & IH3)]; simpl.
  - split_and!; done.
  - destruct (Ascii.eqb c ":") eqn:Hc; simpl.
    + apply Ascii.eqb_eq in Hc as ->. split_and!; [done|done|].
      intros _. by exists value.
    + rewrite Hc. split_and!; [done| |].
      * intros Hno. by rewrite IH2.
      * intros Hyes. destruct (IH3 Hyes) as [rest Hrest].
        exists rest. rewrite append_cons. by rewrite <- Hrest.
Qed.

(** X20. A reference of the form [id:rest], the id without a colon, is
    accepted as a reference and gives back exactly [id] as the old blob
    id. *)
Theorem before_colon_of_reference (id rest : string) :
  includes_colon id = false →
  includes_colon (id +:+ ":" +:+ rest) = true
  ∧ before_colon (id +:+ ":" +:+ rest) = id.
Proof.
  induction id as [|c id IH]; intros Hno.
  - done.
  - simpl in Hno. rewrite append_cons. simpl.
    destruct (Ascii.eqb c ":"); [done|].
    destruct (IH Hno) as [-> ->]. done.
Qed.

Lemma before_colon_of_reference_witness :
  includes_colon ("65b7f82f4d422b89d4cbdd6f" +:+ ":" +:+ "HEAD:0") = true
  ∧ before_colon ("65b7f82f4d422b89d4cbdd6f" +:+ ":" +:+ "HEAD:0")
    = "65b7f82f4d422b89d4cbdd6f".
Proof. apply before_colon_of_reference. reflexivity. Defined.

(** *** The further properties on the example workspace *)

(** The example state once the content of [doc-1] is restored, and a state
    whose storage is empty. *)
Definition ex_state_restored
    : State (gmap BlobId (list (list Byte.byte))) (list string) :=
  {| storage := <[ "doc-1%content" := [[Byte.x01; Byte.x02]] ]>
                  (storage ex_state);
     calls := []; processedCnt := 0; restoredCnt := 0 |}.

Definition ex_state_empty
    : State (gmap BlobId (list (list Byte.byte))) (list string) :=
  {| storage := ∅; calls := []; processedCnt := 0; restoredCnt := 0 |}.


(** A storage that answers like the example one but refuses every [put]. *)
Definition ex_adapter_denied
    : StorageAdapter (gmap BlobId (list (list Byte.byte))) :=
  {| stat := @stat _ ex_adapter;
     read := @read _ ex_adapter;
     put := λ s id data contentType size, (Throw "AccessDenied", s) |}.


Lemma restoreControlledDocContentForDoc_copies_witness :
  (restoreControlledDocContentForDoc ex_db {| dryRun := false |} ex_doc
     "content" ex_state).1 = Ok true
  ∧ storage (restoreControlledDocContentForDoc ex_db {| dryRun := false |}
               ex_doc "content" ex_state).2
    = storage ex_state_restored.
Proof.
  destruct (restoreControlledDocContentForDoc_copies ex_db
              {| dryRun := false |} ex_doc "content" ex_state
              "65b7f82f4d422b89d4cbdd6f:HEAD:0" 1 [[Byte.x01; Byte.x02]]
              (storage ex_state_restored))
    as (Hres & Hs & _); try reflexivity.
  exact (conj Hres Hs).
Defined.

Lemma dryRun_reports_missing_blob_witness :
  (restoreControlledDocContentForDoc ex_db {| dryRun := true |} ex_doc
     "content" ex_state_empty).1 = Ok true
  ∧ (restoreControlledDocContentForDoc ex_db {| dryRun := false |} ex_doc
       "content" ex_state_empty).1 = Ok false.
Proof.
  destruct (dryRun_reports_missing_blob ex_db ex_doc "content" ex_state_empty
              "65b7f82f4d422b89d4cbdd6f:HEAD:0")
    as (Hdry & Hreal & _); try reflexivity.
  exact (conj Hdry Hreal).
Defined.



Lemma restoreWikiContentMongo_dry_counts_witness :
  (restoreWikiContentMongo ex_db {| dryRun := true |} ex_state).1 = Ok tt
  ∧ restoredCnt (restoreWikiContentMongo ex_db {| dryRun := true |}
                   ex_state).2 = 1.
Proof.
  destruct (restoreWikiContentMongo_dry_counts ex_db {| dryRun := true |}
              ex_state eq_refl) as (Hres & _ & Hcount).
  - intros s id. simpl. destruct (s !! _); by eexists.
  - split; [exact Hres|]. rewrite Hcount. reflexivity.
Defined.

End Markup.
